(** * reddit_persona.py: the scrape -> summarize -> save pipeline

    A shallow embedding of [src/reddit_persona.py]: the username resolver
    ([RedditScraper.extract_username_from_url]), the collector
    ([RedditScraper.scrape_user_data]), the synthesizer
    ([PersonaGenerator]), the report writer ([PersonaFileManager]) and the
    two shells that drive them ([streamlit_app], [command_line_interface]).

    Python values are modelled as follows.
    - A [str] is the list of its Unicode code points, so that [len] and
      slicing count characters as Python does.
    - An exception is its class together with [str(e)].
    - External collaborators (praw, groq, the clock, [str.lower]) are the
      fields of an environment record; every call to one of them is logged
      in a trace, in program order, next to what the program prints and
      shows.
    - The file system is a finite map from path strings to nodes, without
      links: a path is looked up as it is written. A file holds the text
      written to it. A write of a text, or a file name, that UTF-8 cannot
      encode raises, and so does a file name beyond the limits of the
      system; other failures of the disk (permissions, space) are not
      modelled.
    - The console and the dashboard take every text: [print] and the [st]
      calls return.

    The file has three parts: the program, the notions the properties are
    stated with (together with sample inputs), and the properties. *)

From Stdlib Require Import ZArith NArith Ascii String DecimalString.
From stdpp Require Import base option list gmap.

Local Open Scope list_scope.

(** ** Python strings *)

Module Py.

(** A character is a code point; a [str] is a list of them. *)
Abbreviation char := N (only parsing).
Abbreviation pystr := (list N) (only parsing).

(** Source literals are written as Rocq strings, which hold UTF-8 bytes;
    [str] decodes them to code points. *)
Fixpoint str (s : string) : pystr :=
  let cont (a : ascii) : N := (N_of_ascii a - 128)%N in
  match s with
  | EmptyString => []
  | String a r =>
    let b := N_of_ascii a in
    if (b <? 128)%N then b :: str r
    else if (b <? 224)%N then
      match r with
      | String a1 r1 => ((b - 192) * 64 + cont a1)%N :: str r1
      | _ => []
      end
    else if (b <? 240)%N then
      match r with
      | String a1 (String a2 r2) =>
        ((b - 224) * 4096 + cont a1 * 64 + cont a2)%N :: str r2
      | _ => []
      end
    else
      match r with
      | String a1 (String a2 (String a3 r3)) =>
        ((b - 240) * 262144 + cont a1 * 4096 + cont a2 * 64 + cont a3)%N
          :: str r3
      | _ => []
      end
  end.
Arguments str _%_string : simpl never.

Definition SLASH : N := 47.
Definition DQUOTE : N := 34.

(** Truthiness of a string: [bool(s)]. *)
Definition truthy (s : pystr) : bool :=
  match s with [] => false | _ :: _ => true end.

(** Truthiness of an optional string ([None] and [''] are falsy). *)
Definition truthy_opt (o : option pystr) : bool :=
  match o with Some s => truthy s | None => false end.

(** [s.startswith(p)] *)
Fixpoint startswith (s p : pystr) {struct p} : bool :=
  match p, s with
  | [], _ => true
  | c :: p', d :: s' => (c =? d)%N && startswith s' p'
  | _ :: _, [] => false
  end.

(** [s.endswith(p)] *)
Definition endswith (s p : pystr) : bool :=
  startswith (rev s) (rev p).

(** [needle in hay] *)
Fixpoint contains (needle hay : pystr) : bool :=
  startswith hay needle ||
  match hay with
  | [] => false
  | _ :: hay' => contains needle hay'
  end.

(** [sep.join(parts)] *)
Fixpoint join (sep : pystr) (parts : list pystr) : pystr :=
  match parts with
  | [] => []
  | [p] => p
  | p :: rest => p ++ sep ++ join sep rest
  end.

(** [str(n)] for an integer. *)
Definition str_of_Z (z : Z) : pystr :=
  str (NilZero.string_of_int (Z.to_int z)).

(** [len(l)] as a Python integer. *)
Definition len {A} (l : list A) : Z := Z.of_nat (length l).

(** [os.path.join(a, b)] of [posixpath]. *)
Definition os_path_join (a b : pystr) : pystr :=
  if startswith b [SLASH] then b
  else if negb (truthy a) || endswith a [SLASH] then a ++ b
  else a ++ [SLASH] ++ b.

End Py.
Import Py.

(** ** Exceptions and results *)

Inductive exn_class := ValueError | PlainException | LibraryError.

Record exn := Exn { exn_cls : exn_class; exn_str : pystr }.

Inductive result (A : Type) := Ok (a : A) | Raise (e : exn).
Arguments Ok {A} a.
Arguments Raise {A} e.

(** ** The Identity Resolver: [RedditScraper.extract_username_from_url] *)

(** The three patterns of the source all have the form of a literal text
    followed by the capture group [([^/]+)]; a pattern is represented by
    its literal text. *)
Record regex := LiteralThenGroup { re_literal : pystr }.

(** Consume the literal text at the head of [s]. *)
Fixpoint match_literal (lit s : pystr) {struct lit} : option pystr :=
  match lit, s with
  | [], _ => Some s
  | c :: lit', d :: s' => if (c =? d)%N then match_literal lit' s' else None
  | _ :: _, [] => None
  end.

(** The greedy [[^/]*]: the longest run of characters other than '/'. *)
Fixpoint span_not_slash (s : pystr) : pystr :=
  match s with
  | [] => []
  | c :: s' => if (c =? SLASH)%N then [] else c :: span_not_slash s'
  end.

(** A match attempt anchored at the head of [s]; returns [group(1)]. *)
Definition match_here (p : regex) (s : pystr) : option pystr :=
  match match_literal (re_literal p) s with
  | Some rest =>
    match span_not_slash rest with
    | [] => None
    | g => Some g
    end
  | None => None
  end.

(** [re.search(pattern, url)]: the leftmost start position that matches. *)
Fixpoint re_search (p : regex) (s : pystr) : option pystr :=
  match match_here p s with
  | Some g => Some g
  | None =>
    match s with
    | [] => None
    | _ :: s' => re_search p s'
    end
  end.

Definition patterns : list regex :=
  [ LiteralThenGroup (str "reddit.com/u/");
    LiteralThenGroup (str "reddit.com/user/");
    LiteralThenGroup (str "reddit.com/users/") ].

(** The [for pattern in patterns] loop: the first pattern that matches. *)
Fixpoint first_match (ps : list regex) (url : pystr) : option pystr :=
  match ps with
  | [] => None
  | pattern :: ps' =>
    match re_search pattern url with
    | Some g => Some g
    | None => first_match ps' url
    end
  end.

Definition invalid_format (url : pystr) : exn :=
  Exn ValueError (str "Invalid Reddit URL format: " ++ url).

Definition extract_username_from_url (url : pystr) : result pystr :=
  match first_match patterns url with
  | Some g => Ok g
  | None => Raise (invalid_format url)
  end.

(** ** Data model *)

(** A Python float, carried through the pipeline without arithmetic:
    a decimal mantissa and exponent ([0.3] is [Float 3 (-1)]). *)
Record pyfloat := Float { mantissa : Z; exponent : Z }.

(** The attributes of a [praw] submission that the collector reads;
    [sub_subreddit] is [str(submission.subreddit)]. *)
Record Submission := {
  sub_id : pystr;
  sub_title : pystr;
  sub_selftext : pystr;
  sub_subreddit : pystr;
  sub_score : Z;
  sub_created_utc : pyfloat;
  sub_permalink : pystr
}.

(** The attributes of a [praw] comment that the collector reads. *)
Record RedditComment := {
  com_id : pystr;
  com_body : pystr;
  com_subreddit : pystr;
  com_score : Z;
  com_created_utc : pyfloat;
  com_permalink : pystr
}.

(** The dict appended to [posts]. *)
Record post := {
  p_id : pystr;
  p_title : pystr;
  p_selftext : pystr;
  p_subreddit : pystr;
  p_score : Z;
  p_created_utc : pyfloat;
  p_url : pystr
}.

(** The dict appended to [comments]. *)
Record comment := {
  c_id : pystr;
  c_body : pystr;
  c_subreddit : pystr;
  c_score : Z;
  c_created_utc : pyfloat;
  c_url : pystr
}.

(** The dict returned by [scrape_user_data]: the Collection Result. *)
Record user_data := {
  username : pystr;
  posts : list post;
  comments : list comment;
  total_posts : Z;
  total_comments : Z
}.

(** A [praw] listing generator, as the [for] loop sees it: it yields items
    until it is exhausted or until a request raises. *)
Inductive listing (A : Type) :=
| Exhausted
| Yield (item : A) (rest : listing A)
| Fails (e : exn).
Arguments Exhausted {A}.
Arguments Yield {A} item rest.
Arguments Fails {A} e.

(** One chat-completion request. *)
Record chat_request := {
  req_model : pystr;
  req_messages : list (pystr * pystr);   (* role, content *)
  req_max_tokens : Z;
  req_temperature : option pyfloat
}.

(** [datetime.now()] *)
Record datetime := {
  year : N; month : N; day : N; hour : N; minute : N; second : N;
  microsecond : N
}.

(** A file-system node. *)
Inductive node := Dir | File (content : pystr).

(** The module-level configuration, loaded once at import. *)
Record Config := {
  REDDIT_CLIENT_ID : option pystr;
  REDDIT_CLIENT_SECRET : option pystr;
  GROQ_API_KEY : option pystr
}.

(** ** External collaborators *)

Record Env := {
  (** [praw.Reddit(client_id, client_secret, user_agent)] *)
  praw_Reddit : option pystr → option pystr → pystr → result unit;
  (** [hasattr(user, 'id')] on the lazy redditor of that name: the first
      access fetches the account; an error other than [AttributeError]
      propagates. *)
  redditor_hasattr_id : pystr → result bool;
  (** [user.id] *)
  redditor_id : pystr → result unit;
  (** [user.submissions.new(limit=limit)] *)
  submissions_new : pystr → Z → listing Submission;
  (** [user.comments.new(limit=limit)] *)
  comments_new : pystr → Z → listing RedditComment;
  (** [Groq(api_key=api_key)] *)
  Groq : option pystr → result unit;
  (** [client.chat.completions.create(...)] and, for the synthesis
      request, [response.choices[0].message.content] (the response to the
      test request is not read); the first argument numbers the requests
      of the run, from 0. *)
  chat_completions_create : nat → chat_request → result pystr;
  (** [datetime.now()]; the argument numbers the clock readings. *)
  datetime_now : nat → datetime;
  (** [str.lower] *)
  lower : pystr → pystr
}.

(** ** Effects *)

(** Calls into streamlit made by the button handler. *)
Inductive st_call :=
| st_error (body : pystr)
| st_success (body : pystr)
| st_info (body : pystr)
| st_markdown (body : pystr)
| st_progress (value : Z)
| st_text_area (label value : pystr) (height : Z)
| st_download_button (label data file_name mime : pystr)
| st_download_json (label : pystr) (user persona model_used : pystr)
    (analysis_date : datetime) (posts_analyzed comments_analyzed : Z)
    (file_name mime : pystr)
| st_metric (label : pystr) (value : Z + pystr)
| st_container
| st_empty
| st_expander (label : pystr)
| st_columns (count : Z).

Inductive event :=
| EvPrint (line : pystr)
| EvRedditInit (client_id client_secret : option pystr) (user_agent : pystr)
| EvRedditorFetch (name : pystr)
| EvSubmissionsNew (name : pystr) (limit : Z)
| EvCommentsNew (name : pystr) (limit : Z)
| EvGroqInit (api_key : option pystr)
| EvChatCompletion (req : chat_request)
| EvClock
| EvSt (call : st_call).

Record state := {
  trace : list event;          (* calls made so far, oldest first *)
  fs : gmap (list N) node;     (* the file system, by path *)
  requests : nat;              (* chat-completion requests issued *)
  ticks : nat                  (* clock readings taken *)
}.

Definition initial_state (files : gmap (list N) node) : state :=
  {| trace := []; fs := files; requests := 0; ticks := 0 |}.

(** A computation reads the environment, updates the state, and returns
    or raises. *)
Definition M (A : Type) : Type := Env → state → result A * state.

#[global] Instance M_ret : MRet M := λ A a, λ _ s, (Ok a, s).
#[global] Instance M_bind : MBind M := λ A B k m, λ env s,
  match m env s with
  | (Ok a, s') => k a env s'
  | (Raise e, s') => (Raise e, s')
  end.

Definition raise {A} (e : exn) : M A := λ _ s, (Raise e, s).

(** [try: body except: handler] *)
Definition try_except {A} (body : M A) (handler : exn → M A) : M A :=
  λ env s,
    match body env s with
    | (Ok a, s') => (Ok a, s')
    | (Raise e, s') => handler e env s'
    end.

(** Append events to the trace. *)
Definition log (s : state) (evs : list event) : state :=
  {| trace := trace s ++ evs; fs := fs s;
     requests := requests s; ticks := ticks s |}.

Definition emit (ev : event) : M unit := λ _ s, (Ok tt, log s [ev]).

(** Log the call [ev] and answer it from the environment. *)
Definition call {A} (ev : event) (answer : Env → result A) : M A :=
  λ env s, (answer env, log s [ev]).

(** [print(line)], on a console that takes every text. *)
Definition print (line : pystr) : M unit := emit (EvPrint line).
Definition st (c : st_call) : M unit := emit (EvSt c).

Definition get_fs : M (gmap (list N) node) := λ _ s, (Ok (fs s), s).
Definition with_fs (s : state) (files : gmap (list N) node) : state :=
  {| trace := trace s; fs := files;
     requests := requests s; ticks := ticks s |}.
Definition put_fs (files : gmap (list N) node) : M unit := λ _ s,
  (Ok tt, with_fs s files).

Definition create_chat_completion (req : chat_request) : M pystr :=
  λ env s,
    (chat_completions_create env (requests s) req,
     {| trace := trace s ++ [EvChatCompletion req]; fs := fs s;
        requests := S (requests s); ticks := ticks s |}).

Definition now : M datetime := λ env s,
  (Ok (datetime_now env (ticks s)),
   {| trace := trace s ++ [EvClock]; fs := fs s;
      requests := requests s; ticks := S (ticks s) |}).

Definition str_lower (s : pystr) : M pystr := λ env st, (Ok (lower env s), st).

(** ** The Content Collector: [RedditScraper.scrape_user_data] *)

(** [RedditScraper.__init__] *)
Definition RedditScraper (client_id client_secret : option pystr)
    (user_agent : pystr) : M unit :=
  call (EvRedditInit client_id client_secret user_agent)
       (λ env, praw_Reddit env client_id client_secret user_agent).

(** A [for] loop whose body appends [body item] to the list [acc], run
    under [try]: the items appended before the listing raises stay in the
    list. Returns the list and the exception caught, if any. *)
Fixpoint for_append {A B} (body : A → B) (it : listing A) (acc : list B)
    : list B * option exn :=
  match it with
  | Exhausted => (acc, None)
  | Yield item rest => for_append body rest (acc ++ [body item])
  | Fails e => (acc, Some e)
  end.

Definition post_of_submission (submission : Submission) : post :=
  {| p_id := sub_id submission;
     p_title := sub_title submission;
     p_selftext := sub_selftext submission;
     p_subreddit := sub_subreddit submission;
     p_score := sub_score submission;
     p_created_utc := sub_created_utc submission;
     p_url := str "https://reddit.com" ++ sub_permalink submission |}.

Definition comment_of_comment (c : RedditComment) : comment :=
  {| c_id := com_id c;
     c_body := com_body c;
     c_subreddit := com_subreddit c;
     c_score := com_score c;
     c_created_utc := com_created_utc c;
     c_url := str "https://reddit.com" ++ com_permalink c |}.

(** Lines 79-92: scrape submissions. *)
Definition scrape_posts (name : pystr) (limit : Z) : M (list post) :=
  it ← call (EvSubmissionsNew name limit)
            (λ env, Ok (submissions_new env name limit));
  let '(posts, caught) := for_append post_of_submission it [] in
  match caught with
  | Some e => print (str "Error scraping posts: " ++ exn_str e);; mret posts
  | None => mret posts
  end.

(** Lines 94-106: scrape comments. *)
Definition scrape_comments (name : pystr) (limit : Z) : M (list comment) :=
  it ← call (EvCommentsNew name limit)
            (λ env, Ok (comments_new env name limit));
  let '(comments, caught) := for_append comment_of_comment it [] in
  match caught with
  | Some e => print (str "Error scraping comments: " ++ exn_str e);; mret comments
  | None => mret comments
  end.

Definition scrape_user_data (name : pystr) (limit : Z) : M user_data :=
  try_except
    ((* user = self.reddit.redditor(username): lazy, no request *)
     has_id ← call (EvRedditorFetch name) (λ env, redditor_hasattr_id env name);
     (if negb has_id then
        try_except
          (call (EvRedditorFetch name) (λ env, redditor_id env name))
          (λ _, raise (Exn ValueError
                   (str "User '" ++ name ++ str "' not found or suspended")))
      else mret tt);;
     posts ← scrape_posts name limit;
     comments ← scrape_comments name limit;
     mret {| username := name;
             posts := posts;
             comments := comments;
             total_posts := len posts;
             total_comments := len comments |})
    (λ e, raise (Exn PlainException
                   (str "Error scraping user data: " ++ exn_str e))).

(** ** The Profile Synthesizer: [PersonaGenerator] *)

Definition NL : N := 10.

(** The body of the [for post in ...] loop of [_prepare_content]. *)
Definition add_post (content : list pystr) (post : post) : list pystr :=
  if truthy (p_title post) && truthy (p_selftext post) then
    content ++ [str "POST [" ++ p_id post ++ str "]: " ++ p_title post
                  ++ str " - " ++ take 500 (p_selftext post)]
  else if truthy (p_title post) then
    content ++ [str "POST [" ++ p_id post ++ str "]: " ++ p_title post]
  else content.

(** The body of the [for comment in ...] loop of [_prepare_content]. *)
Definition add_comment (content : list pystr) (comment : comment) : list pystr :=
  if truthy (c_body comment) && (10 <? len (c_body comment))%Z then
    content ++ [str "COMMENT [" ++ c_id comment ++ str "]: "
                  ++ take 500 (c_body comment)]
  else content.

(** The list [content] at the end of [_prepare_content], before the join. *)
Definition content_lines (user_data : user_data) : list pystr :=
  let content := [] in
  let content := fold_left add_post (take 50 (posts user_data)) content in
  let content := fold_left add_comment (take 50 (comments user_data)) content in
  content.

Definition _prepare_content (user_data : user_data) : pystr :=
  join [NL; NL] (content_lines user_data).

Definition build_prompt (user_data : user_data) (content : pystr) : pystr :=
  str "
        Analyze the following Reddit user data and create a comprehensive digital personality profile.
        
        User: "
  ++ username user_data
  ++ str "
        Total Posts: "
  ++ str_of_Z (total_posts user_data)
  ++ str "
        Total Comments: "
  ++ str_of_Z (total_comments user_data)
  ++ str "
        
        Content to analyze:
        "
  ++ content
  ++ str "
        
        Please create a detailed profile with the following structure:
        
        Reddit Username: "
  ++ username user_data
  ++ str "
        ==========================================
        
        🎯 Core Interests & Passions:
        - List specific interests with supporting evidence
        - Format: Interest (Evidence: "
  ++ [DQUOTE]
  ++ str "exact quote"
  ++ [DQUOTE]
  ++ str " - Source: Post/Comment ID)
        
        🧠 Personality Insights:
        - Identify key personality traits with behavioral evidence
        - Format: Trait (Evidence: "
  ++ [DQUOTE]
  ++ str "exact quote"
  ++ [DQUOTE]
  ++ str " - Source: Post/Comment ID)
        
        ✍️ Communication Style:
        - Analyze writing patterns and tone
        - Format: Style element (Evidence: "
  ++ [DQUOTE]
  ++ str "exact quote"
  ++ [DQUOTE]
  ++ str " - Source: Post/Comment ID)
        
        💭 Core Values & Perspectives:
        - Identify fundamental beliefs and viewpoints
        - Format: Value/Belief (Evidence: "
  ++ [DQUOTE]
  ++ str "exact quote"
  ++ [DQUOTE]
  ++ str " - Source: Post/Comment ID)
        
        📱 Digital Behavior Patterns:
        - Examine Reddit engagement and interaction style
        - Format: Behavior (Evidence: "
  ++ [DQUOTE]
  ++ str "exact quote"
  ++ [DQUOTE]
  ++ str " - Source: Post/Comment ID)
        
        Guidelines:
        - Use direct quotes from the analyzed content
        - Include specific post/comment IDs for verification
        - Keep quotes meaningful but concise
        - Provide concrete evidence for each insight
        - Maintain objectivity and professionalism
        ".

Definition system_message : pystr :=
  str "You are an expert digital behavioral analyst specializing in creating comprehensive user personas from social media data. You analyze communication patterns, interests, and behavioral indicators to build accurate psychological profiles.".

(** A [PersonaGenerator] object: the client is the environment's; [model]
    is the attribute the shells overwrite. *)
Record PersonaGenerator := { model : pystr }.

(** [PersonaGenerator.__init__] *)
Definition PersonaGenerator_init (api_key : option pystr) : M PersonaGenerator :=
  call (EvGroqInit api_key) (λ env, Groq env api_key);;
  mret {| model := str "llama3-70b-8192" |}.

Definition synthesis_request (self : PersonaGenerator) (user_data : user_data)
    : chat_request :=
  {| req_model := model self;
     req_messages :=
       [ (str "system", system_message);
         (str "user", build_prompt user_data (_prepare_content user_data)) ];
     req_max_tokens := 4000;
     req_temperature := Some (Float 3 (-1)) |}.

Definition generate_persona (self : PersonaGenerator) (user_data : user_data)
    : M pystr :=
  try_except
    (create_chat_completion (synthesis_request self user_data))
    (λ e, raise (Exn PlainException
                   (str "Error generating persona: " ++ exn_str e))).

(** ** The Report Writer: [PersonaFileManager] *)

(** [os.path.exists] *)
Definition os_path_exists (files : gmap (list N) node) (path : pystr) : bool :=
  match files !! path with Some _ => true | None => false end.

(** [os.makedirs(path)] for a path of one component, which is all the
    source passes: the directory is created in the working directory. *)
Definition os_makedirs (path : pystr) : M unit :=
  files ← get_fs;
  match files !! path with
  | Some _ =>
    raise (Exn LibraryError (str "[Errno 17] File exists: '" ++ path ++ str "'"))
  | None => put_fs (<[path := Dir]> files)
  end.

Fixpoint drop_to_slash (r : pystr) : pystr :=
  match r with
  | [] => []
  | c :: r' => if (c =? SLASH)%N then r else drop_to_slash r'
  end.

Fixpoint lstrip_slashes (r : pystr) : pystr :=
  match r with
  | [] => []
  | c :: r' => if (c =? SLASH)%N then lstrip_slashes r' else r
  end.

(** [os.path.dirname] of [posixpath]: the text up to the last '/', trailing
    slashes removed unless nothing else is left. *)
Definition dirname (path : pystr) : pystr :=
  let head := drop_to_slash (rev path) in
  match lstrip_slashes head with
  | [] => rev head
  | stripped => rev stripped
  end.

(** The code points UTF-8 does not encode: the surrogates, [U+D800] to
    [U+DFFF]. With the error handler [surrogateescape], under which file
    names are encoded, those from [U+DC80] to [U+DCFF] stand for one byte
    each. *)
Definition is_surrogate (c : N) : bool := (55296 <=? c)%N && (c <=? 57343)%N.
Definition is_escape (c : N) : bool := (56448 <=? c)%N && (c <=? 56575)%N.

Fixpoint surrogates_at (s : pystr) : pystr :=
  match s with
  | [] => []
  | c :: s' => if is_surrogate c then c :: surrogates_at s' else []
  end.

(** Where [s.encode('utf-8')] fails, if it does: the position of the first
    surrogate that cannot be encoded, and the surrogates from there on. *)
Fixpoint codec_error (escapes : bool) (s : pystr) (pos : nat)
    : option (nat * pystr) :=
  match s with
  | [] => None
  | c :: s' =>
    if is_surrogate c && negb (escapes && is_escape c)
    then Some (pos, c :: surrogates_at s')
    else codec_error escapes s' (S pos)
  end.

Definition hex_digit (n : N) : N :=
  if (n <? 10)%N then (48 + n)%N else (87 + n)%N.

Definition hex4 (c : N) : pystr :=
  [ hex_digit (c / 4096); hex_digit ((c / 256) mod 16);
    hex_digit ((c / 16) mod 16); hex_digit (c mod 16) ].

(** [UnicodeEncodeError], a [ValueError], with its text. *)
Definition UnicodeEncodeError (err : nat * pystr) : exn :=
  let (pos, run) := err in
  match run with
  | [c] =>
    Exn ValueError
      (str "'utf-8' codec can't encode character '\u" ++ hex4 c
       ++ str "' in position " ++ str_of_Z (Z.of_nat pos)
       ++ str ": surrogates not allowed")
  | _ =>
    Exn ValueError
      (str "'utf-8' codec can't encode characters in position "
       ++ str_of_Z (Z.of_nat pos) ++ str "-"
       ++ str_of_Z (Z.of_nat (pos + length run - 1))
       ++ str ": surrogates not allowed")
  end.

(** The number of bytes of a file name: its UTF-8 encoding under
    [surrogateescape]. *)
Definition byte_length (s : pystr) : N :=
  foldr (λ c n,
           ((if (c <? 128)%N then 1
             else if (c <? 2048)%N then 2
             else if is_escape c then 1
             else if (c <? 65536)%N then 3
             else 4) + n)%N) 0%N s.

(** The last component of a path. *)
Definition basename (path : pystr) : pystr :=
  rev (span_not_slash (rev path)).

(** The file name limits of the system: [NAME_MAX] bytes for a component
    and [PATH_MAX], less the closing zero, for a path. *)
Definition NAME_MAX : N := 255.
Definition PATH_MAX : N := 4096.

Definition ENAMETOOLONG (path : pystr) : exn :=
  Exn LibraryError (str "[Errno 36] File name too long: '" ++ path ++ str "'").

(** [open(path, 'w', encoding='utf-8')] on a file system without links,
    where a path is looked up as it is written: the name is encoded, must
    hold no zero and fit the limits; the directory of [path] must be the
    working directory or an existing directory, and [path] itself must not
    be a directory; the file is created, or truncated if it exists. In the
    texts of the errors the path is shown as it is. *)
Definition open_w (path : pystr) : M unit :=
  files ← get_fs;
  match codec_error true path 0 with
  | Some err => raise (UnicodeEncodeError err)
  | None =>
    if bool_decide (0%N ∈ path) then
      raise (Exn ValueError (str "embedded null byte"))
    else if (PATH_MAX <=? byte_length path)%N then raise (ENAMETOOLONG path)
    else
      let parent := dirname path in
      if negb (truthy parent) ||
         match files !! parent with Some Dir => true | _ => false end
      then
        if (NAME_MAX <? byte_length (basename path))%N then
          raise (ENAMETOOLONG path)
        else
          match files !! path with
          | Some Dir =>
            raise (Exn LibraryError
                     (str "[Errno 21] Is a directory: '" ++ path ++ str "'"))
          | _ => put_fs (<[path := File []]> files)
          end
      else
        match files !! parent with
        | Some (File _) =>
          raise (Exn LibraryError
                   (str "[Errno 20] Not a directory: '" ++ path ++ str "'"))
        | _ =>
          raise (Exn LibraryError
                   (str "[Errno 2] No such file or directory: '" ++ path
                    ++ str "'"))
        end
  end.

(** [f.write(data)] on the file opened at [path]: the text is encoded as
    a whole before any of it reaches the file. *)
Definition file_write (path data : pystr) : M unit :=
  files ← get_fs;
  match files !! path with
  | Some (File written) =>
    match codec_error false data 0 with
    | Some err => raise (UnicodeEncodeError err)
    | None => put_fs (<[path := File (written ++ data)]> files)
    end
  | _ => raise (Exn LibraryError (str "I/O operation on closed file."))
  end.

(** Decimal digits of [n], left-padded with zeros to [width]. *)
Definition zero_padded (width : nat) (n : N) : pystr :=
  let digits := str_of_Z (Z.of_N n) in
  replicate (width - length digits) 48%N ++ digits.

(** [t.strftime('%Y-%m-%d %H:%M:%S')] *)
Definition strftime (t : datetime) : pystr :=
  zero_padded 4 (year t) ++ str "-" ++ zero_padded 2 (month t) ++ str "-"
  ++ zero_padded 2 (day t) ++ str " " ++ zero_padded 2 (hour t) ++ str ":"
  ++ zero_padded 2 (minute t) ++ str ":" ++ zero_padded 2 (second t).

Definition ensure_output_directory : M pystr :=
  let output_dir := str "output" in
  files ← get_fs;
  (if negb (os_path_exists files output_dir) then os_makedirs output_dir
   else mret tt);;
  mret output_dir.

Definition save_persona (persona name : pystr) : M pystr :=
  output_dir ← ensure_output_directory;
  let filename := name ++ str "_digital_profile.txt" in
  let filepath := os_path_join output_dir filename in
  open_w filepath;;
  file_write filepath persona;;
  t ← now;
  file_write filepath ([NL; NL] ++ str "Profile Generated: " ++ strftime t);;
  mret filepath.

(** ** Configuration *)

(** [get_api_key]: the process environment first, then the streamlit
    secrets; [secrets] answers [None] where [st.secrets[key_name]] raises. *)
Definition get_api_key (getenv secrets : pystr → option pystr)
    (key_name : pystr) : option pystr :=
  match getenv key_name with
  | Some value => if truthy value then Some value else secrets key_name
  | None => secrets key_name
  end.

Definition load_config (getenv secrets : pystr → option pystr) : Config :=
  {| REDDIT_CLIENT_ID := get_api_key getenv secrets (str "REDDIT_CLIENT_ID");
     REDDIT_CLIENT_SECRET := get_api_key getenv secrets (str "REDDIT_CLIENT_SECRET");
     GROQ_API_KEY := get_api_key getenv secrets (str "GROQ_API_KEY") |}.


(** ** The shells *)

(** The models offered by [--model] and by the dashboard's selector. *)
Inductive model_choice := llama3_70b | llama3_8b | mixtral_8x7b.

Definition model_name (m : model_choice) : pystr :=
  match m with
  | llama3_70b => str "llama3-70b-8192"
  | llama3_8b => str "llama3-8b-8192"
  | mixtral_8x7b => str "mixtral-8x7b-32768"
  end.

(** The parsed command line. *)
Record Args := {
  args_url : pystr;
  args_depth : Z;
  args_model : model_choice;
  args_output : pystr
}.

(** Run a pure step that returns or raises. *)
Definition lift {A} (r : result A) : M A := λ _ s, (r, s).

(** The one-token request both shells send before the synthesis. *)
Definition test_request (model : pystr) : chat_request :=
  {| req_model := model;
     req_messages := [ (str "user", str "test") ];
     req_max_tokens := 1;
     req_temperature := None |}.

Definition EQUALS : N := 61.
Definition USER_AGENT : pystr := str "DigitalPersonaAnalyzer/2.0".

(** The [except] branch of [command_line_interface], up to [sys.exit]. *)
Definition cli_report_failure (e : exn) : M unit :=
  print (str "❌ Analysis failed: " ++ exn_str e);;
  low ← str_lower (exn_str e);
  if contains (str "api_key") low then
    print (str "🔑 Invalid Groq API credentials. Please verify your configuration.")
  else if contains (str "rate_limit") low then
    print (str "⏱️ Rate limit exceeded. Please wait before retrying.")
  else if contains (str "not found") low then
    print (str "👻 Reddit user not found or profile is private/suspended.")
  else mret tt.

(** [command_line_interface], from the parsed arguments on; the value is
    the exit status of the process. *)
Definition command_line_interface (cfg : Config) (args : Args) : M Z :=
  try_except
    (print (str "🧠 Digital Persona Analyzer v2.0");;
     print (replicate 40 EQUALS);;
     print (str "🔄 Initializing Reddit data collector...");;
     RedditScraper (REDDIT_CLIENT_ID cfg) (REDDIT_CLIENT_SECRET cfg) USER_AGENT;;
     print (str "👤 Extracting user identity...");;
     name ← lift (extract_username_from_url (args_url args));
     print (str "✅ Target identified: u/" ++ name);;
     print (str "📥 Collecting digital footprint...");;
     user_data ← scrape_user_data name (args_depth args);
     print (str "✅ Collected " ++ str_of_Z (total_posts user_data)
              ++ str " posts and " ++ str_of_Z (total_comments user_data)
              ++ str " comments");;
     print (str "🧠 Performing AI analysis with " ++ model_name (args_model args)
              ++ str "...");;
     generator ← PersonaGenerator_init (GROQ_API_KEY cfg);
     let generator := {| model := model_name (args_model args) |} in
     (* Test API connection *)
     create_chat_completion (test_request (model_name (args_model args)));;
     persona ← generate_persona generator user_data;
     print (str "💾 Generating profile report...");;
     filepath ← save_persona persona name;
     print (str "✅ Digital persona analysis complete!");;
     print (str "📁 Report saved: " ++ filepath);;
     print ([NL] ++ replicate 60 EQUALS);;
     print (str "DIGITAL PERSONA PREVIEW");;
     print (replicate 60 EQUALS);;
     let preview :=
       if (600 <? len persona)%Z then take 600 persona ++ str "..."
       else persona in
     print preview;;
     print ([NL] ++ replicate 60 EQUALS);;
     print (str "📊 Analysis Stats: " ++ str_of_Z (total_posts user_data)
              ++ str " posts, " ++ str_of_Z (total_comments user_data)
              ++ str " comments");;
     print (str "🤖 AI Model: " ++ model_name (args_model args));;
     mret 0%Z)
    (λ e, cli_report_failure e;; mret 1%Z).

(** [s.split(sep)[0]] for a one-character separator. *)
Fixpoint split_head (sep : N) (s : pystr) : pystr :=
  match s with
  | [] => []
  | c :: s' => if (c =? sep)%N then [] else c :: split_head sep s'
  end.

(** [str.upper] on ASCII text, which is all it is applied to here (the
    three model names). *)
Definition upper_ascii (s : pystr) : pystr :=
  map (λ c, if (97 <=? c)%N && (c <=? 122)%N then (c - 32)%N else c) s.

(** The [except] branch of the dashboard's button handler. *)
Definition st_report_failure (e : exn) : M unit :=
  st (st_error (str "❌ Analysis failed: " ++ exn_str e));;
  low ← str_lower (exn_str e);
  if contains (str "api_key") low then
    st (st_error (str "🔑 Invalid Groq API credentials. Please verify your configuration."))
  else if contains (str "rate_limit") low then
    st (st_error (str "⏱️ Rate limit reached. Please wait before retrying."))
  else if contains (str "not found") low then
    st (st_error (str "👻 Reddit user not found or profile is private/suspended."))
  else mret tt.

(** [streamlit_app], from the click on the analyze button on, given the
    values of the URL field, the depth slider and the model selector. The
    rendering of the page around the button issues no request and is not
    modelled. *)
Definition streamlit_app (cfg : Config) (reddit_url : pystr)
    (scrape_limit : Z) (model_choice : model_choice) : M unit :=
  if negb (truthy reddit_url) then
    st (st_error (str "⚠️ Please provide a valid Reddit profile URL to begin analysis."))
  else if negb (truthy_opt (REDDIT_CLIENT_ID cfg))
          || negb (truthy_opt (REDDIT_CLIENT_SECRET cfg)) then
    st (st_error (str "🔑 Reddit API credentials not configured. Please check the sidebar for setup instructions."))
  else if negb (truthy_opt (GROQ_API_KEY cfg)) then
    st (st_error (str "🔑 Groq API key not configured. Please check the sidebar for setup instructions."))
  else
    try_except
      (st st_container;;
       st (st_progress 0);;
       st st_empty;;
       st (st_markdown (str "🔄 **Initializing Reddit data collector...**"));;
       st (st_progress 15);;
       RedditScraper (REDDIT_CLIENT_ID cfg) (REDDIT_CLIENT_SECRET cfg) USER_AGENT;;
       name ← lift (extract_username_from_url reddit_url);
       st (st_markdown (str "👤 **Target identified:** u/" ++ name));;
       st (st_progress 25);;
       st (st_markdown (str "📥 **Collecting digital footprint data...**"));;
       user_data ← scrape_user_data name scrape_limit;
       st (st_progress 50);;
       st (st_markdown (str "🧠 **Performing AI personality analysis...**"));;
       generator ← PersonaGenerator_init (GROQ_API_KEY cfg);
       let generator := {| model := model_name model_choice |} in
       (* Test API connection *)
       create_chat_completion (test_request (model_name model_choice));;
       persona ← generate_persona generator user_data;
       st (st_progress 75);;
       st (st_markdown (str "💾 **Generating downloadable report...**"));;
       filepath ← save_persona persona name;
       st (st_progress 100);;
       st (st_markdown (str "✅ **Analysis complete! Digital persona ready.**"));;
       st (st_success (str "🎉 Successfully analyzed digital persona for **u/"
                         ++ name ++ str "**"));;
       st (st_info (str "📁 Report saved as: `" ++ filepath ++ str "`"));;
       st (st_expander (str "📄 View Complete Digital Profile"));;
       st (st_text_area (str "Digital Persona Analysis") persona 450);;
       st (st_columns 2);;
       st (st_download_button (str "📥 Download Full Report") persona
             (name ++ str "_digital_profile.txt") (str "text/plain"));;
       analysis_date ← now;
       st (st_download_json (str "📊 Export as JSON") name persona
             (model_name model_choice) analysis_date
             (total_posts user_data) (total_comments user_data)
             (name ++ str "_profile_data.json") (str "application/json"));;
       st (st_markdown (str "### 📊 Analysis Metrics"));;
       st (st_columns 4);;
       st (st_metric (str "📝 Posts Analyzed") (inl (total_posts user_data)));;
       st (st_metric (str "💬 Comments Analyzed") (inl (total_comments user_data)));;
       st (st_metric (str "🎯 Total Data Points")
             (inl (total_posts user_data + total_comments user_data)%Z));;
       st (st_metric (str "🤖 AI Model")
             (inr (upper_ascii (split_head 45 (model_name model_choice))))))
      st_report_failure.

(** ** The entry point: [main] *)

(** [main], by [sys.argv]; the two shells are the computations it hands
    over to, and the value is the exit status of the process: that of the
    command line, or 0 once the dashboard returns. *)
Definition main (argv : list pystr) (streamlit_app : M unit)
    (command_line_interface : M Z) : M Z :=
  if (1 <? len argv)%Z && bool_decide (argv !! 1 = Some (str "--streamlit"))
  then streamlit_app;; mret 0%Z
  else if (1 <? len argv)%Z && bool_decide (str "--url" ∈ argv)
  then command_line_interface
  else
    print (str "🚀 Starting Digital Persona Analyzer...");;
    print (str "💡 Run with --url for command line interface");;
    print (str "🌐 Use 'streamlit run reddit_persona.py' for web interface");;
    streamlit_app;;
    mret 0%Z.

(** ** Specification-side notions *)

(** The three URL shapes of the specification, in order; the shape
    [.../u/<name>] is given by the text [reddit.com/u/] that precedes the
    name, and likewise for the other two. *)
Definition shapes : list pystr :=
  [ str "reddit.com/u/"; str "reddit.com/user/"; str "reddit.com/users/" ].

(** [url] reads [pre], then the shape's text, then [name], a whole path
    segment: not empty, without '/', and followed by '/' or by nothing. *)
Definition shape_at (lit pre name url : pystr) : Prop :=
  ∃ rest, url = pre ++ lit ++ name ++ rest
          ∧ name ≠ [] ∧ (SLASH ∉ name)
          ∧ (rest = [] ∨ ∃ r, rest = SLASH :: r).

Definition has_shape (lit url : pystr) : Prop :=
  ∃ pre name, shape_at lit pre name url.

(** [name] is the segment of the leftmost occurrence of the shape. *)
Definition leftmost_shape (lit name url : pystr) : Prop :=
  ∃ pre, shape_at lit pre name url
         ∧ ∀ pre' name', shape_at lit pre' name' url → length pre ≤ length pre'.

(** [name] is the leftmost segment of the first shape, in order, that
    [url] has. *)
Definition resolves_to (url name : pystr) : Prop :=
  ∃ k lit, shapes !! k = Some lit
           ∧ leftmost_shape lit name url
           ∧ ∀ j lit', j < k → shapes !! j = Some lit' → ¬ has_shape lit' url.

(** The items a listing yields before it ends, and how it ends. *)
Fixpoint yielded {A} (it : listing A) : list A :=
  match it with
  | Yield item rest => item :: yielded rest
  | _ => []
  end.

Fixpoint failure {A} (it : listing A) : option exn :=
  match it with
  | Exhausted => None
  | Yield _ rest => failure rest
  | Fails e => Some e
  end.

(** The chat-completion requests of a trace, in order. *)
Definition chat_requests (tr : list event) : list chat_request :=
  omap (λ ev, match ev with EvChatCompletion req => Some req | _ => None end) tr.

(** The requests to the content API. *)
Definition is_content_api_call (ev : event) : bool :=
  match ev with
  | EvRedditorFetch _ | EvSubmissionsNew _ _ | EvCommentsNew _ _ => true
  | _ => false
  end.

(** The line the excerpt holds for a post that has a title: its id, its
    title and, when it has a body, the first 500 characters of the body. *)
Definition post_line (p : post) : pystr :=
  str "POST [" ++ p_id p ++ str "]: " ++ p_title p
  ++ (if truthy (p_selftext p) then str " - " ++ take 500 (p_selftext p)
      else []).

(** The line the excerpt holds for a comment: its id and the first 500
    characters of its body. *)
Definition comment_line (c : comment) : pystr :=
  str "COMMENT [" ++ c_id c ++ str "]: " ++ take 500 (c_body c).

Definition has_title (p : post) : bool := truthy (p_title p).
Definition long_body (c : comment) : bool := (10 <? len (c_body c))%Z.

Definition is_post_line (l : pystr) : bool := startswith l (str "POST [").
Definition is_comment_line (l : pystr) : bool := startswith l (str "COMMENT [").

(** What the account check at the head of [scrape_user_data] does: the
    error it ends with, if any, and the requests it issues. *)
Definition identity_check (env : Env) (name : pystr)
    : option exn * list event :=
  match redditor_hasattr_id env name with
  | Ok true => (None, [EvRedditorFetch name])
  | Ok false =>
    match redditor_id env name with
    | Ok _ => (None, [EvRedditorFetch name; EvRedditorFetch name])
    | Raise _ =>
      (Some (Exn ValueError
               (str "User '" ++ name ++ str "' not found or suspended")),
       [EvRedditorFetch name; EvRedditorFetch name])
    end
  | Raise e => (Some e, [EvRedditorFetch name])
  end.

(** The Collection Result built from what the two listings yield. *)
Definition collected (env : Env) (name : pystr) (limit : Z) : user_data :=
  let ps := map post_of_submission (yielded (submissions_new env name limit)) in
  let cs := map comment_of_comment (yielded (comments_new env name limit)) in
  {| username := name; posts := ps; comments := cs;
     total_posts := len ps; total_comments := len cs |}.

(** The warning printed when a listing fails. *)
Definition warning (what : pystr) (caught : option exn) : list event :=
  match caught with
  | Some e => [EvPrint (str "Error scraping " ++ what ++ str ": " ++ exn_str e)]
  | None => []
  end.

(** The path and the text of the report, as the specification gives them. *)
Definition report_path (name : pystr) : pystr :=
  str "output/" ++ name ++ str "_digital_profile.txt".

Definition report_text (persona : pystr) (t : datetime) : pystr :=
  persona ++ [NL; NL] ++ str "Profile Generated: " ++ strftime t.

(** The disk once [ensure_output_directory] has run. *)
Definition with_output (files : gmap (list N) node) : gmap (list N) node :=
  match files !! str "output" with
  | None => <[str "output" := Dir]> files
  | Some _ => files
  end.






(** ** Observing a run *)

(** The part of a trace selected by [q]. *)
Definition observe (q : event → bool) (tr : list event) : list event :=
  List.filter q tr.

(** Events left out of the observations below: console and dashboard
    output other than the success message, the construction of the two
    clients, and clock readings. *)
Definition boring (ev : event) : bool :=
  match ev with
  | EvPrint _ | EvRedditInit _ _ _ | EvGroqInit _ | EvClock => true
  | EvSt (st_success _) => false
  | EvSt _ => true
  | _ => false
  end.

Definition ignores_boring (q : event → bool) : Prop :=
  ∀ ev, boring ev = true → q ev = false.

(** The events by which the success of a run is judged: the
    chat-completion requests and the dashboard's success message. *)
Definition is_key_event (ev : event) : bool :=
  match ev with
  | EvChatCompletion _ | EvSt (st_success _) => true
  | _ => false
  end.

(** From [s] to [s'] the observed trace grew by the observed part of
    [evs]. *)
Definition seen (q : event → bool) (s s' : state) (evs : list event) : Prop :=
  observe q (trace s') = observe q (trace s) ++ observe q evs.

(** A computation that adds nothing to the observed trace. *)
Definition quiet (q : event → bool) {A} (m : M A) : Prop :=
  ∀ env s, seen q s (m env s).2 [].

(** [Q] holds of the outcome of [m] run from [s]. *)
Definition outcome {A} (m : M A) (env : Env) (s : state)
    (Q : result A → state → Prop) : Prop :=
  Q (m env s).1 (m env s).2.

(** The two requests a successful run sends to the LLM endpoint. *)
Definition llm_requests (model : pystr) (ud : user_data) : list chat_request :=
  [ test_request model; synthesis_request {| model := model |} ud ].

(** The requests a run sends to the content API once the account check
    has passed. *)
Definition fetches (env : Env) (name : pystr) (limit : Z) : list event :=
  (identity_check env name).2
  ++ [ EvSubmissionsNew name limit; EvCommentsNew name limit ].

(** What a run of the command line from [s] leaves in the observed trace
    of [s'], and its exit status [r], by the answers of the services. *)
Definition cli_summary (q : event → bool) (cfg : Config) (args : Args)
    (env : Env) (s : state) (r : result Z) (s' : state) : Prop :=
  let failed evs := r = Ok 1%Z ∧ seen q s s' evs in
  let model := model_name (args_model args) in
  match praw_Reddit env (REDDIT_CLIENT_ID cfg) (REDDIT_CLIENT_SECRET cfg)
          USER_AGENT with
  | Raise _ => failed []
  | Ok _ =>
    match extract_username_from_url (args_url args) with
    | Raise _ => failed []
    | Ok name =>
      match (identity_check env name).1 with
      | Some _ => failed (identity_check env name).2
      | None =>
        let ud := collected env name (args_depth args) in
        let evs := fetches env name (args_depth args) in
        match Groq env (GROQ_API_KEY cfg) with
        | Raise _ => failed evs
        | Ok _ =>
          ∃ n,
          match chat_completions_create env n (test_request model) with
          | Raise _ => failed (evs ++ [EvChatCompletion (test_request model)])
          | Ok _ =>
            ∃ n',
            match chat_completions_create env n'
                    (synthesis_request {| model := model |} ud) with
            | Raise _ =>
              failed (evs ++ (EvChatCompletion <$> llm_requests model ud))
            | Ok _ =>
              (r = Ok 0%Z ∨ r = Ok 1%Z)
              ∧ seen q s s' (evs ++ (EvChatCompletion <$> llm_requests model ud))
            end
          end
        end
      end
    end
  end.

(** The dashboard's success message. *)
Definition success_message (name : pystr) : st_call :=
  st_success (str "🎉 Successfully analyzed digital persona for **u/"
                ++ name ++ str "**").


(** A computation that leaves the file system alone outside [P]. *)
Definition fs_frame {A} (P : list N → Prop) (m : M A) : Prop :=
  ∀ env s q, ¬ P q → fs (m env s).2 !! q = fs s !! q.

(** ** The effects of a run *)

(** From [s] to [s'] the observed trace grew by the observed part of
    [evs], [k] chat-completion requests were issued and the clock was read
    [t] times; the file system is the same. *)
Definition advance (q : event → bool) (s s' : state) (evs : list event)
    (k t : nat) : Prop :=
  seen q s s' evs ∧ fs s' = fs s
  ∧ requests s' = k + requests s ∧ ticks s' = t + ticks s.

(** The user name and the profile a run arrives at when every service
    answers: the content client is built, the URL resolves, the account
    check passes, the LLM client is built, and the test request and the
    synthesis request, the [n]-th and the next request to the endpoint,
    are answered. *)
Definition pipeline_answer (cfg : Config) (url : pystr) (limit : Z)
    (m : model_choice) (env : Env) (n : nat) : option (pystr * pystr) :=
  match praw_Reddit env (REDDIT_CLIENT_ID cfg) (REDDIT_CLIENT_SECRET cfg)
          USER_AGENT with
  | Raise _ => None
  | Ok _ =>
    match extract_username_from_url url with
    | Raise _ => None
    | Ok name =>
      match (identity_check env name).1 with
      | Some _ => None
      | None =>
        match Groq env (GROQ_API_KEY cfg) with
        | Raise _ => None
        | Ok _ =>
          match chat_completions_create env n (test_request (model_name m)) with
          | Raise _ => None
          | Ok _ =>
            match chat_completions_create env (S n)
                    (synthesis_request {| model := model_name m |}
                       (collected env name limit)) with
            | Raise _ => None
            | Ok persona => Some (name, persona)
            end
          end
        end
      end
    end
  end.

(** What a run of the command line from [s] does, stage by stage: its
    exit status [r], what it leaves in the observed trace, the requests it
    sends to the LLM endpoint, and the state [s0] in which the report
    writer is called. *)
Definition cli_effects (q : event → bool) (cfg : Config) (args : Args)
    (env : Env) (s : state) (r : result Z) (s' : state) : Prop :=
  let failed evs k := r = Ok 1%Z ∧ advance q s s' evs k 0 in
  let model := model_name (args_model args) in
  match praw_Reddit env (REDDIT_CLIENT_ID cfg) (REDDIT_CLIENT_SECRET cfg)
          USER_AGENT with
  | Raise _ => failed [] 0
  | Ok _ =>
    match extract_username_from_url (args_url args) with
    | Raise _ => failed [] 0
    | Ok name =>
      match (identity_check env name).1 with
      | Some _ => failed (identity_check env name).2 0
      | None =>
        let ud := collected env name (args_depth args) in
        let evs := fetches env name (args_depth args) in
        match Groq env (GROQ_API_KEY cfg) with
        | Raise _ => failed evs 0
        | Ok _ =>
          match chat_completions_create env (requests s) (test_request model) with
          | Raise _ => failed (evs ++ [EvChatCompletion (test_request model)]) 1
          | Ok _ =>
            match chat_completions_create env (S (requests s))
                    (synthesis_request {| model := model |} ud) with
            | Raise _ =>
              failed (evs ++ (EvChatCompletion <$> llm_requests model ud)) 2
            | Ok persona =>
              ∃ s0,
                advance q s s0
                  (evs ++ (EvChatCompletion <$> llm_requests model ud)) 2 0
                ∧ advance q (save_persona persona name env s0).2 s' [] 0 0
                ∧ r = match (save_persona persona name env s0).1 with
                      | Ok _ => Ok 0%Z
                      | Raise _ => Ok 1%Z
                      end
            end
          end
        end
      end
    end
  end.

(** The same for a click on the dashboard's button. *)
Definition st_effects (q : event → bool) (cfg : Config) (url : pystr)
    (limit : Z) (m : model_choice) (env : Env) (s : state)
    (r : result unit) (s' : state) : Prop :=
  let model := model_name m in
  r = Ok tt ∧
  if negb (truthy url)
     || negb (truthy_opt (REDDIT_CLIENT_ID cfg))
     || negb (truthy_opt (REDDIT_CLIENT_SECRET cfg))
     || negb (truthy_opt (GROQ_API_KEY cfg))
  then advance q s s' [] 0 0
  else
    match praw_Reddit env (REDDIT_CLIENT_ID cfg) (REDDIT_CLIENT_SECRET cfg)
            USER_AGENT with
    | Raise _ => advance q s s' [] 0 0
    | Ok _ =>
      match extract_username_from_url url with
      | Raise _ => advance q s s' [] 0 0
      | Ok name =>
        match (identity_check env name).1 with
        | Some _ => advance q s s' (identity_check env name).2 0 0
        | None =>
          let ud := collected env name limit in
          let evs := fetches env name limit in
          match Groq env (GROQ_API_KEY cfg) with
          | Raise _ => advance q s s' evs 0 0
          | Ok _ =>
            match chat_completions_create env (requests s) (test_request model) with
            | Raise _ =>
              advance q s s' (evs ++ [EvChatCompletion (test_request model)]) 1 0
            | Ok _ =>
              match chat_completions_create env (S (requests s))
                      (synthesis_request {| model := model |} ud) with
              | Raise _ =>
                advance q s s'
                  (evs ++ (EvChatCompletion <$> llm_requests model ud)) 2 0
              | Ok persona =>
                ∃ s0,
                  advance q s s0
                    (evs ++ (EvChatCompletion <$> llm_requests model ud)) 2 0
                  ∧ match (save_persona persona name env s0).1 with
                    | Ok _ =>
                      advance q (save_persona persona name env s0).2 s'
                        [EvSt (success_message name)] 0 1
                    | Raise _ =>
                      advance q (save_persona persona name env s0).2 s' [] 0 0
                    end
              end
            end
          end
        end
      end
    end.

(** The calls to the dashboard library. *)
Definition is_dashboard_call (ev : event) : bool :=
  match ev with EvSt _ => true | _ => false end.

(** The requests a run sends to the two services: those to the content
    API and the chat-completion requests. *)
Definition is_request (ev : event) : bool :=
  match ev with
  | EvRedditorFetch _ | EvSubmissionsNew _ _ | EvCommentsNew _ _
  | EvChatCompletion _ => true
  | _ => false
  end.

(** ** Sample inputs *)

(** [str.lower] on ASCII text. *)
Definition ascii_lower (s : pystr) : pystr :=
  map (λ c, if (65 <=? c)%N && (c <=? 90)%N then (c + 32)%N else c) s.

Definition sample_time : datetime :=
  {| year := 2025; month := 7; day := 14;
     hour := 9; minute := 5; second := 3; microsecond := 0 |}.

Definition submission (id title selftext : pystr) : Submission :=
  {| sub_id := id; sub_title := title; sub_selftext := selftext;
     sub_subreddit := str "rust"; sub_score := 1;
     sub_created_utc := Float 1752483903 0;
     sub_permalink := str "/r/rust/comments/" ++ id ++ str "/" |}.

Definition reddit_comment (id body : pystr) : RedditComment :=
  {| com_id := id; com_body := body;
     com_subreddit := str "rust"; com_score := 1;
     com_created_utc := Float 1752483903 0;
     com_permalink := str "/r/rust/comments/p1/_/" ++ id ++ str "/" |}.

(** Three posts, the second a link post without body. *)
Definition alice_submissions : listing Submission :=
  Yield (submission (str "p1") (str "Hello") (str "First post"))
    (Yield (submission (str "p2") (str "A link") [])
       (Yield (submission (str "p3") (str "Question") (str "How do I borrow?"))
          Exhausted)).

(** The groq client refuses to be built without a key. *)
Definition groq_client (api_key : option pystr) : result unit :=
  if truthy_opt api_key then Ok tt
  else Raise (Exn LibraryError
                (str "The api_key client option must be set either by passing api_key to the client or by setting the GROQ_API_KEY environment variable")).

(** An account with three posts and no comment; every service answers. *)
Definition alice_env : Env :=
  {| praw_Reddit := λ _ _ _, Ok tt;
     redditor_hasattr_id := λ _, Ok true;
     redditor_id := λ _, Ok tt;
     submissions_new := λ _ _, alice_submissions;
     comments_new := λ _ _, Exhausted;
     Groq := groq_client;
     chat_completions_create := λ _ _, Ok (str "Reddit Username: alice");
     datetime_now := λ _, sample_time;
     lower := ascii_lower |}.


Definition full_config : Config :=
  {| REDDIT_CLIENT_ID := Some (str "id");
     REDDIT_CLIENT_SECRET := Some (str "secret");
     GROQ_API_KEY := Some (str "gsk_key") |}.

Definition no_llm_config : Config :=
  {| REDDIT_CLIENT_ID := Some (str "id");
     REDDIT_CLIENT_SECRET := Some (str "secret");
     GROQ_API_KEY := None |}.

(** [--url https://www.reddit.com/user/alice/] *)
Definition alice_args : Args :=
  {| args_url := str "https://www.reddit.com/user/alice/";
     args_depth := 100;
     args_model := llama3_70b;
     args_output := str "output" |}.

(** [--url https://www.reddit.com/user/alice/ --output results] *)
Definition results_args : Args :=
  {| args_url := str "https://www.reddit.com/user/alice/";
     args_depth := 100;
     args_model := llama3_70b;
     args_output := str "results" |}.

(** A file system in which [/tmp] exists. *)
Definition tmp_files : gmap (list N) node := {[ str "/tmp" := Dir ]}.

Definition titled (id title : pystr) : post :=
  {| p_id := id; p_title := title; p_selftext := [];
     p_subreddit := str "rust"; p_score := 1;
     p_created_utc := Float 1752483903 0;
     p_url := str "https://reddit.com/r/rust/comments/" ++ id ++ str "/" |}.

(** Three posts, the second without a title, and no comment. *)
Definition untitled_data : user_data :=
  {| username := str "alice";
     posts := [ titled (str "p1") (str "Hello"); titled (str "p2") [];
                titled (str "p3") (str "Question") ];
     comments := [];
     total_posts := 3;
     total_comments := 0 |}.

(** An account that does not resolve: the lazy redditor has no [id], and
    reading it raises. *)
Definition ghost_env : Env :=
  {| praw_Reddit := λ _ _ _, Ok tt;
     redditor_hasattr_id := λ _, Ok false;
     redditor_id := λ _, Raise (Exn LibraryError (str "received 404 HTTP response"));
     submissions_new := λ _ _, alice_submissions;
     comments_new := λ _ _, Exhausted;
     Groq := groq_client;
     chat_completions_create := λ _ _, Ok (str "Reddit Username: alice");
     datetime_now := λ _, sample_time;
     lower := ascii_lower |}.




(** A file system in which [output] is a regular file. *)
Definition blocked_files : gmap (list N) node := {[ str "output" := File (str "x") ]}.

(** A post without a title and a comment of ten characters. *)
Definition terse_data : user_data :=
  {| username := str "alice";
     posts := [ titled (str "p1") [] ];
     comments :=
       [ {| c_id := str "c1"; c_body := str "Thank you!";
            c_subreddit := str "rust"; c_score := 1;
            c_created_utc := Float 1752483903 0;
            c_url := str "https://reddit.com/r/rust/comments/p1/_/c1/" |} ];
     total_posts := 1;
     total_comments := 1 |}.

(** An LLM endpoint that turns every request down. *)
Definition throttled_env : Env :=
  {| praw_Reddit := λ _ _ _, Ok tt;
     redditor_hasattr_id := λ _, Ok true;
     redditor_id := λ _, Ok tt;
     submissions_new := λ _ _, alice_submissions;
     comments_new := λ _ _, Exhausted;
     Groq := groq_client;
     chat_completions_create := λ _ _,
       Raise (Exn LibraryError (str "Error code: 429 - rate_limit_exceeded"));
     datetime_now := λ _, sample_time;
     lower := ascii_lower |}.

(** * Properties *)

(** ** The resolver *)

Section Matching.

Implicit Types (lit s url name pre rest : list N) (p : regex).

Lemma match_literal_spec lit s rest :
  match_literal lit s = Some rest ↔ s = lit ++ rest.
Proof.
  revert s. induction lit as [|c lit IH]; intros s; simpl.
  - split; [intros [= ->] | intros ->]; done.
  - destruct s as [|d s]; [done|].
    destruct (N.eqb_spec c d) as [->|Hne].
    + rewrite IH. split; [intros -> | intros [= ->]]; done.
    + split; [done | intros [= ? ?]; done].
Qed.

Lemma span_not_slash_no_slash s : SLASH ∉ span_not_slash s.
Proof.
  induction s as [|c s IH]; simpl; [apply not_elem_of_nil|].
  destruct (N.eqb_spec c SLASH) as [->|Hne]; [apply not_elem_of_nil|].
  apply not_elem_of_cons. split; [congruence | done].
Qed.

Lemma span_not_slash_split s :
  ∃ rest, s = span_not_slash s ++ rest ∧ (rest = [] ∨ ∃ r, rest = SLASH :: r).
Proof.
  induction s as [|c s (rest & Hs & Hrest)]; simpl.
  - exists []. split; [done | by left].
  - destruct (N.eqb_spec c SLASH) as [->|Hne].
    + exists (SLASH :: s). split; [done | right; by eexists].
    + exists rest. split; [simpl; congruence | done].
Qed.

Lemma span_not_slash_segment name rest :
  SLASH ∉ name → (rest = [] ∨ ∃ r, rest = SLASH :: r) →
  span_not_slash (name ++ rest) = name.
Proof.
  intros Hname Hrest. induction name as [|c name IH]; simpl.
  - by destruct Hrest as [->|[r ->]].
  - apply not_elem_of_cons in Hname as [Hc Hname].
    destruct (N.eqb_spec c SLASH) as [->|_]; [done|].
    by rewrite IH.
Qed.

Lemma match_here_spec p s name :
  match_here p s = Some name ↔ shape_at (re_literal p) [] name s.
Proof.
  unfold match_here, shape_at. split.
  - destruct (match_literal (re_literal p) s) as [after|] eqn:Hlit; [|done].
    apply match_literal_spec in Hlit as ->.
    destruct (span_not_slash_split after) as (rest & Hafter & Hrest).
    pose proof (span_not_slash_no_slash after) as Hno.
    destruct (span_not_slash after) as [|c g] eqn:Hspan; [done|].
    intros [= <-]. exists rest. simpl. by rewrite Hafter at 1.
  - intros (rest & -> & Hne & Hno & Hrest). simpl.
    assert (match_literal (re_literal p) (re_literal p ++ name ++ rest)
            = Some (name ++ rest)) as -> by by apply match_literal_spec.
    rewrite span_not_slash_segment by done.
    by destruct name.
Qed.

Lemma shape_at_cons lit c pre name s :
  shape_at lit (c :: pre) name (c :: s) ↔ shape_at lit pre name s.
Proof.
  unfold shape_at. split; intros (rest & H & ?); exists rest; simpl in *;
    (split; [congruence | done]).
Qed.

Lemma shape_at_cons_inv lit pre name c s :
  shape_at lit pre name (c :: s) →
  pre = [] ∨ ∃ pre', pre = c :: pre' ∧ shape_at lit pre' name s.
Proof.
  destruct pre as [|d pre']; [by left|]. intros H. right.
  assert (d = c) as -> by (destruct H as (? & [= ? ?] & ?); done).
  exists pre'. split; [done | by apply shape_at_cons in H].
Qed.

Lemma shape_at_nil_pre lit pre name : shape_at lit pre name [] → pre = [].
Proof. intros (rest & H & _). by destruct pre. Qed.

Lemma re_search_Some p s name :
  re_search p s = Some name ↔ leftmost_shape (re_literal p) name s.
Proof.
  unfold leftmost_shape. induction s as [|c s IH]; simpl.
  - destruct (match_here p []) as [g|] eqn:Hhere.
    + split.
      * intros [= <-]. exists []. split; [by apply match_here_spec|].
        intros; simpl; lia.
      * intros (pre & Hat & _). pose proof (shape_at_nil_pre _ _ _ Hat) as ->.
        apply match_here_spec in Hat. congruence.
    + split; [done|]. intros (pre & Hat & _).
      pose proof (shape_at_nil_pre _ _ _ Hat) as ->.
      apply match_here_spec in Hat. congruence.
  - destruct (match_here p (c :: s)) as [g|] eqn:Hhere.
    + split.
      * intros [= <-]. exists []. split; [by apply match_here_spec|].
        intros; simpl; lia.
      * intros (pre & Hat & Hmin).
        apply match_here_spec in Hhere.
        specialize (Hmin _ _ Hhere). destruct pre; [|simpl in Hmin; lia].
        apply match_here_spec in Hat, Hhere. congruence.
    + rewrite IH. split.
      * intros (pre & Hat & Hmin). exists (c :: pre).
        split; [by apply shape_at_cons|].
        intros pre' name' Hat'.
        destruct (shape_at_cons_inv _ _ _ _ _ Hat') as [->|(pre'' & -> & Hat'')].
        -- apply match_here_spec in Hat'. congruence.
        -- specialize (Hmin _ _ Hat''). simpl. lia.
      * intros (pre & Hat & Hmin).
        destruct (shape_at_cons_inv _ _ _ _ _ Hat) as [->|(pre'' & -> & Hat'')].
        -- apply match_here_spec in Hat. congruence.
        -- exists pre''. split; [done|]. intros pre' name' Hat'.
           apply (shape_at_cons _ c) in Hat'.
           specialize (Hmin _ _ Hat'). simpl in Hmin. lia.
Qed.

End Matching.

Section Resolution.

Implicit Types (lit s url name pre rest : list N) (p : regex).

Lemma re_search_None_no_shape p s :
  re_search p s = None → ∀ pre name, ¬ shape_at (re_literal p) pre name s.
Proof.
  induction s as [|c s IH]; simpl;
    destruct (match_here p _) as [g|] eqn:Hhere; try done.
  - intros _ pre name Hat. pose proof (shape_at_nil_pre _ _ _ Hat) as ->.
    apply match_here_spec in Hat. congruence.
  - intros Hs pre name Hat.
    destruct (shape_at_cons_inv _ _ _ _ _ Hat) as [->|(pre' & -> & Hat')].
    + apply match_here_spec in Hat. congruence.
    + by eapply IH.
Qed.

Lemma re_search_None p s :
  re_search p s = None ↔ ¬ has_shape (re_literal p) s.
Proof.
  split.
  - intros Hs (pre & name & Hat). by eapply re_search_None_no_shape.
  - intros Hno. destruct (re_search p s) as [g|] eqn:Hs; [|done].
    apply re_search_Some in Hs as (pre & Hat & _).
    destruct Hno. by exists pre, g.
Qed.

Lemma leftmost_has_shape lit name url :
  leftmost_shape lit name url → has_shape lit url.
Proof. intros (pre & Hat & _). by exists pre, name. Qed.

Lemma first_match_Some (ps : list regex) url name :
  first_match ps url = Some name ↔
  ∃ k lit, (re_literal <$> ps) !! k = Some lit
           ∧ leftmost_shape lit name url
           ∧ (∀ j lit', j < k → (re_literal <$> ps) !! j = Some lit' →
                        ¬ has_shape lit' url).
Proof.
  induction ps as [|p ps IH]; simpl.
  - split; [done | by intros (k & lit & ? & _)].
  - destruct (re_search p url) as [g|] eqn:Hs.
    + split.
      * intros [= <-]. exists 0, (re_literal p).
        split; [done|]. split; [by apply re_search_Some | intros; lia].
      * intros (k & lit & Hk & Hleft & Hearlier). destruct k as [|k].
        -- injection Hk as <-. apply re_search_Some in Hleft. congruence.
        -- destruct (Hearlier 0 (re_literal p)); [lia | done |].
           eapply leftmost_has_shape. by apply re_search_Some.
    + rewrite IH. split.
      * intros (k & lit & Hk & Hleft & Hearlier). exists (S k), lit.
        split; [done|]. split; [done|]. intros [|j] lit' Hj Hlit'.
        -- injection Hlit' as <-. by apply re_search_None.
        -- apply (Hearlier j); [lia | done].
      * intros (k & lit & Hk & Hleft & Hearlier). destruct k as [|k].
        -- injection Hk as <-. apply re_search_Some in Hleft. congruence.
        -- exists k, lit. split; [done|]. split; [done|].
           intros j lit' Hj Hlit'. apply (Hearlier (S j)); [lia | done].
Qed.

Lemma first_match_None (ps : list regex) url :
  first_match ps url = None ↔
  ∀ lit, lit ∈ re_literal <$> ps → ¬ has_shape lit url.
Proof.
  induction ps as [|p ps IH]; simpl.
  - split; [|done]. intros _ lit Hin. by apply elem_of_nil in Hin.
  - destruct (re_search p url) as [g|] eqn:Hs.
    + split; [done|]. intros Hno. destruct (Hno (re_literal p)).
      * apply elem_of_cons. by left.
      * eapply leftmost_has_shape. by apply re_search_Some.
    + rewrite IH. split.
      * intros Hno lit [->|Hin]%elem_of_cons; [by apply re_search_None | auto].
      * intros Hno lit Hin. apply Hno, elem_of_cons. by right.
Qed.

Lemma shapes_patterns : re_literal <$> patterns = shapes.
Proof. reflexivity. Qed.

Lemma extract_Ok url name :
  extract_username_from_url url = Ok name ↔ resolves_to url name.
Proof.
  unfold extract_username_from_url, resolves_to. rewrite <- shapes_patterns.
  rewrite <- first_match_Some.
  destruct (first_match patterns url); split; congruence.
Qed.

Lemma extract_Raise url :
  extract_username_from_url url = Raise (invalid_format url) ↔
  ∀ lit, lit ∈ shapes → ¬ has_shape lit url.
Proof.
  unfold extract_username_from_url. rewrite <- shapes_patterns.
  rewrite <- first_match_None.
  destruct (first_match patterns url); split; congruence.
Qed.

Lemma resolves_to_segment url name :
  resolves_to url name → name ≠ [] ∧ SLASH ∉ name.
Proof.
  intros (k & lit & _ & (pre & (rest & _ & Hne & Hno & _) & _) & _). done.
Qed.

End Resolution.

(** ** The excerpt *)

Section Excerpt.

Lemma add_post_spec content p :
  add_post content p = content ++ (if has_title p then [post_line p] else []).
Proof.
  unfold add_post, has_title, post_line.
  destruct (truthy (p_title p)), (truthy (p_selftext p)); simpl;
    rewrite ?app_nil_r; done.
Qed.

Lemma add_comment_spec content c :
  add_comment content c =
  content ++ (if long_body c then [comment_line c] else []).
Proof.
  unfold add_comment, long_body, comment_line, len.
  destruct (c_body c) as [|x body]; simpl; [by rewrite app_nil_r|].
  destruct (10 <? _)%Z; [done | by rewrite app_nil_r].
Qed.

Lemma fold_add_post ps content :
  fold_left add_post ps content
  = content ++ map post_line (List.filter has_title ps).
Proof.
  revert content. induction ps as [|p ps IH]; intros content; simpl.
  - by rewrite app_nil_r.
  - rewrite IH, add_post_spec. destruct (has_title p); simpl.
    + by rewrite <- app_assoc.
    + by rewrite app_nil_r.
Qed.

Lemma fold_add_comment cs content :
  fold_left add_comment cs content
  = content ++ map comment_line (List.filter long_body cs).
Proof.
  revert content. induction cs as [|c cs IH]; intros content; simpl.
  - by rewrite app_nil_r.
  - rewrite IH, add_comment_spec. destruct (long_body c); simpl.
    + by rewrite <- app_assoc.
    + by rewrite app_nil_r.
Qed.

Lemma content_lines_spec ud :
  content_lines ud
  = map post_line (List.filter has_title (take 50 (posts ud)))
    ++ map comment_line (List.filter long_body (take 50 (comments ud))).
Proof. unfold content_lines. by rewrite fold_add_comment, fold_add_post. Qed.

Lemma is_post_line_post p : is_post_line (post_line p) = true.
Proof. by vm_compute. Qed.

Lemma is_post_line_comment c : is_post_line (comment_line c) = false.
Proof. by vm_compute. Qed.

Lemma is_comment_line_comment c : is_comment_line (comment_line c) = true.
Proof. by vm_compute. Qed.

Lemma is_comment_line_post p : is_comment_line (post_line p) = false.
Proof. by vm_compute. Qed.

Lemma filter_map_all {A B} (f : A → B) (q : B → bool) (l : list A) :
  (∀ a, q (f a) = true) → List.filter q (map f l) = map f l.
Proof. intros Hq. induction l; simpl; [done|]. by rewrite Hq, IHl. Qed.

Lemma filter_map_none {A B} (f : A → B) (q : B → bool) (l : list A) :
  (∀ a, q (f a) = false) → List.filter q (map f l) = [].
Proof. intros Hq. induction l; simpl; [done|]. by rewrite Hq. Qed.

Lemma post_lines_of_content ud :
  List.filter is_post_line (content_lines ud)
  = map post_line (List.filter has_title (take 50 (posts ud))).
Proof.
  rewrite content_lines_spec, List.filter_app.
  rewrite (filter_map_all _ _ _ is_post_line_post).
  rewrite (filter_map_none _ _ _ is_post_line_comment).
  by rewrite app_nil_r.
Qed.

Lemma comment_lines_of_content ud :
  List.filter is_comment_line (content_lines ud)
  = map comment_line (List.filter long_body (take 50 (comments ud))).
Proof.
  rewrite content_lines_spec, List.filter_app.
  rewrite (filter_map_none _ _ _ is_comment_line_post).
  by rewrite (filter_map_all _ _ _ is_comment_line_comment).
Qed.

Lemma filter_length_le {A} (q : A → bool) (l : list A) :
  length (List.filter q l) ≤ length l.
Proof. induction l; simpl; [done|]. destruct (q _); simpl; lia. Qed.

Lemma filter_all {A} (q : A → bool) (l : list A) :
  Forall (λ a, q a = true) l → List.filter q l = l.
Proof. induction 1 as [|a l Ha _ IH]; simpl; [done|]. by rewrite Ha, IH. Qed.

End Excerpt.

(** ** The collector *)

Section Collector.

Lemma bind_run {A B} (m : M A) (k : A → M B) env s :
  (m ≫= k) env s =
  match m env s with
  | (Ok a, s') => k a env s'
  | (Raise e, s') => (Raise e, s')
  end.
Proof. reflexivity. Qed.

Lemma log_log s a b : log (log s a) b = log s (a ++ b).
Proof. unfold log. simpl. by rewrite app_assoc. Qed.

Lemma for_append_spec {A B} (body : A → B) it acc :
  for_append body it acc = (acc ++ map body (yielded it), failure it).
Proof.
  revert acc. induction it as [|item rest IH|e]; intros acc; simpl.
  - by rewrite app_nil_r.
  - by rewrite IH, <- app_assoc.
  - by rewrite app_nil_r.
Qed.

Lemma scrape_posts_run name limit env s :
  scrape_posts name limit env s =
  (Ok (map post_of_submission (yielded (submissions_new env name limit))),
   log s (EvSubmissionsNew name limit
          :: warning (str "posts") (failure (submissions_new env name limit)))).
Proof.
  unfold scrape_posts, call, mbind, M_bind. rewrite for_append_spec.
  destruct (failure _); simpl; [by rewrite log_log | done].
Qed.

Lemma scrape_comments_run name limit env s :
  scrape_comments name limit env s =
  (Ok (map comment_of_comment (yielded (comments_new env name limit))),
   log s (EvCommentsNew name limit
          :: warning (str "comments") (failure (comments_new env name limit)))).
Proof.
  unfold scrape_comments, call, mbind, M_bind. rewrite for_append_spec.
  destruct (failure _); simpl; [by rewrite log_log | done].
Qed.

Lemma scrape_user_data_run name limit env s :
  scrape_user_data name limit env s =
  match identity_check env name with
  | (Some e, evs) =>
    (Raise (Exn PlainException (str "Error scraping user data: " ++ exn_str e)),
     log s evs)
  | (None, evs) =>
    (Ok (collected env name limit),
     log s (evs
            ++ EvSubmissionsNew name limit
               :: warning (str "posts") (failure (submissions_new env name limit))
            ++ EvCommentsNew name limit
               :: warning (str "comments") (failure (comments_new env name limit))))
  end.
Proof.
  unfold scrape_user_data, identity_check, try_except, call, raise.
  unfold mbind, M_bind.
  destruct (redditor_hasattr_id env name) as [[|]|e]; simpl; [| |done].
  - rewrite scrape_posts_run, scrape_comments_run. simpl.
    by rewrite !log_log.
  - destruct (redditor_id env name) as [[]|e]; simpl.
    + rewrite scrape_posts_run, scrape_comments_run. simpl.
      by rewrite !log_log.
    + by rewrite !log_log.
Qed.

End Collector.

(** ** The report writer *)

Section Writer.

Lemma startswith_slash_filename name :
  startswith name [SLASH] = false →
  startswith (name ++ str "_digital_profile.txt") [SLASH] = false.
Proof. destruct name as [|c name]; [done|]. simpl. by rewrite !andb_true_r. Qed.

Lemma join_report_path name :
  startswith name [SLASH] = false →
  os_path_join (str "output") (name ++ str "_digital_profile.txt")
  = report_path name.
Proof.
  intros H. unfold os_path_join. by rewrite (startswith_slash_filename _ H).
Qed.

Lemma report_path_not_output name : report_path name ≠ str "output".
Proof.
  unfold report_path. intros H. apply (f_equal length) in H.
  rewrite !length_app in H. vm_compute (length (str _)) in H. lia.
Qed.

Lemma ensure_output_directory_run env s :
  (fs s !! str "output" = None ∨ fs s !! str "output" = Some Dir) →
  ensure_output_directory env s
  = (Ok (str "output"), with_fs s (<[str "output" := Dir]> (fs s))).
Proof.
  unfold ensure_output_directory, os_path_exists, os_makedirs, get_fs, put_fs.
  rewrite !bind_run. intros [H|H]; rewrite H; cbn.
  - rewrite bind_run. cbn. by rewrite H.
  - rewrite insert_id by done. by destruct s.
Qed.

Lemma open_w_Ok path env s s' :
  open_w path env s = (Ok tt, s') →
  s' = with_fs s (<[path := File []]> (fs s)).
Proof.
  unfold open_w, get_fs, put_fs, raise. rewrite bind_run. cbn.
  destruct (codec_error true path 0); [done|].
  destruct (bool_decide _); [done|].
  destruct (PATH_MAX <=? _)%N; [done|].
  destruct (negb _ || _); [|by destruct (fs s !! dirname path) as [[|?]|]].
  destruct (NAME_MAX <? _)%N; [done|].
  destruct (fs s !! path) as [[|?]|]; by intros [= <-].
Qed.


Lemma open_w_Raise path env s e s' :
  open_w path env s = (Raise e, s') → s' = s.
Proof.
  unfold open_w, get_fs, put_fs, raise. rewrite bind_run. cbn.
  destruct (codec_error true path 0); [by intros [= _ <-]|].
  destruct (bool_decide _); [by intros [= _ <-]|].
  destruct (PATH_MAX <=? _)%N; [by intros [= _ <-]|].
  destruct (negb _ || _);
    [|by destruct (fs s !! dirname path) as [[|?]|]; intros [= _ <-]].
  destruct (NAME_MAX <? _)%N; [by intros [= _ <-]|].
  destruct (fs s !! path) as [[|?]|]; by intros [= <-].
Qed.

Lemma file_write_Ok path data env s s' :
  file_write path data env s = (Ok tt, s') →
  ∃ written, fs s !! path = Some (File written)
             ∧ codec_error false data 0 = None
             ∧ s' = with_fs s (<[path := File (written ++ data)]> (fs s)).
Proof.
  unfold file_write, get_fs, put_fs, raise. rewrite bind_run. cbn.
  destruct (fs s !! path) as [[|written]|]; try done.
  destruct (codec_error false data 0); [done|].
  intros [= <-]. by exists written.
Qed.

Lemma file_write_Raise path data env s e s' :
  file_write path data env s = (Raise e, s') → s' = s.
Proof.
  unfold file_write, get_fs, put_fs, raise. rewrite bind_run. cbn.
  destruct (fs s !! path) as [[|written]|]; try by intros [= _ <-].
  destruct (codec_error false data 0); by intros [= <-].
Qed.





End Writer.

Section Frame.

Lemma frame_ret {A} P (a : A) : fs_frame P (mret a).
Proof. done. Qed.

Lemma frame_raise {A} P e : fs_frame P (@raise A e).
Proof. done. Qed.

Lemma frame_now P : fs_frame P now.
Proof. done. Qed.

Lemma frame_bind {A B} P (m : M A) (k : A → M B) :
  fs_frame P m → (∀ a, fs_frame P (k a)) → fs_frame P (m ≫= k).
Proof.
  intros Hm Hk env s q Hq. rewrite bind_run. specialize (Hm env s q Hq).
  destruct (m env s) as [[a|e] s']; simpl in *; [|done].
  by rewrite Hk.
Qed.

Lemma frame_open_w path : fs_frame (λ q, q = path) (open_w path).
Proof.
  intros env s q Hq. unfold open_w, get_fs, put_fs, raise. rewrite bind_run.
  cbn. repeat case_match; cbn; try done; by rewrite lookup_insert_ne.
Qed.

Lemma frame_file_write path data : fs_frame (λ q, q = path) (file_write path data).
Proof.
  intros env s q Hq. unfold file_write, get_fs, put_fs, raise. rewrite bind_run.
  cbn. repeat case_match; cbn; try done; by rewrite lookup_insert_ne.
Qed.

Lemma ensure_output_directory_total env s :
  ∃ files, ensure_output_directory env s = (Ok (str "output"), with_fs s files)
           ∧ ∀ q, q ≠ str "output" → files !! q = fs s !! q.
Proof.
  unfold ensure_output_directory, os_path_exists, os_makedirs, get_fs, put_fs.
  rewrite !bind_run. cbn.
  destruct (fs s !! str "output") as [n|] eqn:Hout; cbn.
  - exists (fs s). split; [by destruct s | done].
  - rewrite bind_run. cbn. rewrite Hout.
    exists (<[str "output" := Dir]> (fs s)). split; [done|].
    intros q Hq. by rewrite lookup_insert_ne.
Qed.

Lemma save_persona_frame persona name env s q :
  q ≠ str "output" →
  q ≠ os_path_join (str "output") (name ++ str "_digital_profile.txt") →
  fs (save_persona persona name env s).2 !! q = fs s !! q.
Proof.
  intros Hout Hpath. unfold save_persona. rewrite bind_run.
  destruct (ensure_output_directory_total env s) as (files & -> & Hfiles).
  set (path := os_path_join _ _) in *.
  transitivity (fs (with_fs s files) !! q); [|by apply Hfiles].
  apply (frame_bind (λ q, q = path)); [apply frame_open_w | intros _ | done].
  apply frame_bind; [apply frame_file_write | intros _].
  apply frame_bind; [apply frame_now | intros t].
  apply frame_bind; [apply frame_file_write | intros _].
  apply frame_ret.
Qed.

Lemma save_persona_path persona name env s path s' :
  save_persona persona name env s = (Ok path, s') →
  path = os_path_join (str "output") (name ++ str "_digital_profile.txt").
Proof.
  unfold save_persona. rewrite bind_run.
  destruct (ensure_output_directory_total env s) as (files & -> & _).
  set (p := os_path_join _ _).
  rewrite bind_run. destruct (open_w p env _) as [[[]|?] ?]; [|done].
  rewrite bind_run. destruct (file_write p persona env _) as [[[]|?] ?]; [|done].
  rewrite bind_run. unfold now at 1. cbn [fst snd].
  rewrite bind_run. destruct (file_write p _ env _) as [[[]|?] ?]; [|done].
  by intros [= <- _].
Qed.

Lemma ensure_output_directory_exact env s :
  ensure_output_directory env s
  = (Ok (str "output"), with_fs s (with_output (fs s))).
Proof.
  unfold ensure_output_directory, os_path_exists, os_makedirs, get_fs, put_fs.
  unfold with_output. rewrite !bind_run. cbn.
  destruct (fs s !! str "output") as [n|] eqn:Hout; cbn.
  - by destruct s.
  - rewrite bind_run. cbn. by rewrite Hout.
Qed.

(** What the report writer has done when it returns. *)
Lemma save_persona_returns persona name env s path s' :
  save_persona persona name env s = (Ok path, s') →
  path = os_path_join (str "output") (name ++ str "_digital_profile.txt")
  ∧ codec_error false persona 0 = None
  ∧ s' = {| trace := trace s ++ [EvClock];
            fs := <[path := File (report_text persona
                                    (datetime_now env (ticks s)))]>
                    (with_output (fs s));
            requests := requests s;
            ticks := S (ticks s) |}.
Proof.
  intros Hrun. pose proof (save_persona_path _ _ _ _ _ _ Hrun) as Hpath.
  split; [done|]. revert Hrun. unfold save_persona.
  rewrite bind_run, ensure_output_directory_exact.
  rewrite <- Hpath. rewrite bind_run.
  destruct (open_w path env _) as [[[]|?] s1] eqn:Hopen; [|done].
  apply open_w_Ok in Hopen as ->. rewrite bind_run.
  destruct (file_write path persona env _) as [[[]|?] s2] eqn:Hfirst; [|done].
  apply file_write_Ok in Hfirst as (written & Hwritten & Hcodec & ->).
  cbn [fs with_fs] in Hwritten. rewrite lookup_insert_eq in Hwritten.
  injection Hwritten as <-.
  unfold now at 1. rewrite bind_run. cbn [fst snd]. rewrite bind_run.
  destruct (file_write path _ env _) as [[[]|?] s3] eqn:Hsecond; [|done].
  apply file_write_Ok in Hsecond as (written & Hwritten & _ & ->).
  cbn [fs with_fs] in Hwritten. rewrite lookup_insert_eq in Hwritten.
  injection Hwritten as <-.
  intros [= <-]. split; [done|]. unfold with_fs, report_text. cbn.
  by rewrite !insert_insert_eq.
Qed.


Lemma join_not_output b : os_path_join (str "output") b ≠ str "output".
Proof.
  unfold os_path_join. destruct b as [|c b].
  - vm_compute. discriminate.
  - destruct (startswith (c :: b) [SLASH]) eqn:Hstart.
    + change (startswith (c :: b) [SLASH]) with ((SLASH =? c)%N && true)
        in Hstart.
      rewrite andb_true_r in Hstart. apply N.eqb_eq in Hstart as <-.
      vm_compute. discriminate.
    + intros H. apply (f_equal length) in H. vm_compute in H. lia.
Qed.

Lemma drop_to_slash_app a b :
  SLASH ∉ a → drop_to_slash (a ++ SLASH :: b) = SLASH :: b.
Proof.
  induction a as [|c a IH]; intros Ha; simpl; [done|].
  apply not_elem_of_cons in Ha as [Hc Ha].
  destruct (N.eqb_spec c SLASH); [done | by apply IH].
Qed.

Lemma suffix_no_slash name :
  SLASH ∉ name → SLASH ∉ name ++ str "_digital_profile.txt".
Proof.
  intros Hname. apply not_elem_of_app. split; [done|].
  vm_compute. intros Hin. 
  repeat (apply elem_of_cons in Hin as [Hin|Hin]; [discriminate|]).
  by apply elem_of_nil in Hin.
Qed.

Lemma dirname_report_path name :
  SLASH ∉ name → dirname (report_path name) = str "output".
Proof.
  intros Hname. unfold dirname, report_path.
  change (str "output/" ++ name ++ str "_digital_profile.txt")
    with (str "output" ++ SLASH :: (name ++ str "_digital_profile.txt")).
  rewrite rev_app_distr. cbn [rev]. rewrite <- app_assoc. cbn [app].
  rewrite drop_to_slash_app; [done|].
  intros Hin. apply list_elem_of_In, in_rev, list_elem_of_In in Hin.
  by apply suffix_no_slash in Hin.
Qed.

Lemma no_slash_startswith name : SLASH ∉ name → startswith name [SLASH] = false.
Proof.
  destruct name as [|c name]; [done|]. intros Hc.
  apply not_elem_of_cons in Hc as [Hc _].
  change (startswith (c :: name) [SLASH]) with ((SLASH =? c)%N && true).
  rewrite andb_true_r. by apply N.eqb_neq.
Qed.

End Frame.

(** ** Observing a run *)

Section Observation.

Context (q : event → bool) (Hq : ignores_boring q).

Lemma observe_app a b : observe q (a ++ b) = observe q a ++ observe q b.
Proof. apply List.filter_app. Qed.

Lemma observe_cons ev tr : observe q (ev :: tr) = observe q [ev] ++ observe q tr.
Proof. apply (observe_app [ev]). Qed.

Lemma observe_boring ev : boring ev = true → observe q [ev] = [].
Proof. intros Hev. unfold observe. simpl. by rewrite (Hq _ Hev). Qed.

Lemma observe_warning what caught : observe q (warning what caught) = [].
Proof. destruct caught; [by apply observe_boring | done]. Qed.

Lemma seen_same_trace s s' : trace s' = trace s → seen q s s' [].
Proof. unfold seen. intros ->. simpl. by rewrite app_nil_r. Qed.

Lemma seen_refl s : seen q s s [].
Proof. by apply seen_same_trace. Qed.

Lemma seen_trans s s1 s2 evs1 evs2 :
  seen q s s1 evs1 → seen q s1 s2 evs2 → seen q s s2 (evs1 ++ evs2).
Proof.
  unfold seen. intros H1 H2. by rewrite H2, H1, observe_app, app_assoc.
Qed.

Lemma seen_quiet s s1 s2 evs : seen q s s1 evs → seen q s1 s2 [] → seen q s s2 evs.
Proof.
  intros H1 H2. pose proof (seen_trans _ _ _ _ _ H1 H2) as H.
  by rewrite app_nil_r in H.
Qed.

Lemma seen_log s evs : seen q s (log s evs) evs.
Proof. unfold seen, log. simpl. apply observe_app. Qed.

Lemma seen_same s s' evs evs' :
  observe q evs = observe q evs' → seen q s s' evs → seen q s s' evs'.
Proof. unfold seen. by intros <-. Qed.

Lemma seen_log_boring s ev : boring ev = true → seen q s (log s [ev]) [].
Proof.
  intros Hev. apply (seen_same _ _ [ev]); [by apply observe_boring|].
  apply seen_log.
Qed.

(** *** Computations that add nothing to the observed trace *)

Lemma quiet_ret {A} (a : A) : quiet q (mret a).
Proof. intros env s. apply seen_refl. Qed.

Lemma quiet_raise {A} e : quiet q (@raise A e).
Proof. intros env s. apply seen_refl. Qed.

Lemma quiet_bind {A B} (m : M A) (k : A → M B) :
  quiet q m → (∀ a, quiet q (k a)) → quiet q (m ≫= k).
Proof.
  intros Hm Hk env s. rewrite bind_run. specialize (Hm env s).
  destruct (m env s) as [[a|e] s']; simpl in *; [|done].
  eapply seen_quiet; [done | apply Hk].
Qed.

Lemma quiet_emit ev : boring ev = true → quiet q (emit ev).
Proof. intros Hev env s. by apply seen_log_boring. Qed.

Lemma quiet_call {A} ev (answer : Env → result A) :
  boring ev = true → quiet q (call ev answer).
Proof. intros Hev env s. by apply seen_log_boring. Qed.

Lemma quiet_print line : quiet q (print line).
Proof. by apply quiet_emit. Qed.

Lemma quiet_get_fs : quiet q get_fs.
Proof. intros env s. apply seen_refl. Qed.

Lemma quiet_put_fs files : quiet q (put_fs files).
Proof. intros env s. by apply seen_same_trace. Qed.

Lemma quiet_now : quiet q now.
Proof.
  intros env s. apply (seen_same _ _ [EvClock]); [by apply observe_boring|].
  unfold seen, now. simpl. apply observe_app.
Qed.

Lemma quiet_str_lower text : quiet q (str_lower text).
Proof. intros env s. apply seen_refl. Qed.

End Observation.

Ltac quiet_step :=
  first
    [ apply quiet_ret | apply quiet_raise
    | apply quiet_get_fs | apply quiet_put_fs | apply quiet_str_lower
    | apply quiet_print; assumption
    | apply quiet_now; assumption
    | apply quiet_emit; [assumption | reflexivity]
    | apply quiet_call; [assumption | reflexivity]
    | apply quiet_bind; [|intros ?]
    | match goal with
      | |- quiet _ (if ?b then _ else _) => destruct b
      | |- quiet _ (match ?x with _ => _ end) => destruct x
      end ].

Section Rules.

Context (q : event → bool) (Hq : ignores_boring q).

Lemma quiet_save_persona persona name : quiet q (save_persona persona name).
Proof.
  unfold save_persona, ensure_output_directory, os_makedirs, open_w, file_write.
  repeat quiet_step.
Qed.

Lemma quiet_cli_report_failure e : quiet q (cli_report_failure e).
Proof. unfold cli_report_failure. repeat quiet_step. Qed.

Lemma quiet_st_report_failure e : quiet q (st_report_failure e).
Proof. unfold st_report_failure, st. repeat quiet_step. Qed.

(** *** Rules for the outcome of a computation *)

Lemma outcome_bind {A B} (m : M A) (k : A → M B) env s Q :
  outcome m env s (λ r s', match r with
                           | Ok a => outcome (k a) env s' Q
                           | Raise e => Q (Raise e) s'
                           end) →
  outcome (m ≫= k) env s Q.
Proof. unfold outcome. rewrite bind_run. by destruct (m env s) as [[|] ?]. Qed.

Lemma outcome_try {A} (m : M A) (h : exn → M A) env s Q :
  outcome m env s (λ r s', match r with
                           | Ok a => Q (Ok a) s'
                           | Raise e => outcome (h e) env s' Q
                           end) →
  outcome (try_except m h) env s Q.
Proof. unfold outcome, try_except. by destruct (m env s) as [[|] ?]. Qed.

Lemma outcome_ret {A} (a : A) env s (Q : result A → state → Prop) :
  Q (Ok a) s → outcome (mret a) env s Q.
Proof. done. Qed.

Lemma outcome_lift {A} (r : result A) env s (Q : result A → state → Prop) :
  Q r s → outcome (lift r) env s Q.
Proof. done. Qed.

Lemma outcome_quiet {A} (m : M A) env s (Q : result A → state → Prop) :
  quiet q m → (∀ r s', seen q s s' [] → Q r s') → outcome m env s Q.
Proof. intros Hm HQ. apply HQ, Hm. Qed.

Lemma outcome_print line env s (Q : result unit → state → Prop) :
  (∀ s', seen q s s' [] → Q (Ok tt) s') → outcome (print line) env s Q.
Proof. intros HQ. apply HQ. by apply seen_log_boring. Qed.

Lemma outcome_st c env s (Q : result unit → state → Prop) :
  (∀ s', seen q s s' [EvSt c] → Q (Ok tt) s') → outcome (st c) env s Q.
Proof. intros HQ. apply HQ. apply seen_log. Qed.


Lemma outcome_RedditScraper a b c env s (Q : result unit → state → Prop) :
  (∀ s', seen q s s' [] → Q (praw_Reddit env a b c) s') →
  outcome (RedditScraper a b c) env s Q.
Proof. intros HQ. apply HQ. by apply seen_log_boring. Qed.

Lemma outcome_PersonaGenerator_init key env s
    (Q : result PersonaGenerator → state → Prop) :
  (∀ s', seen q s s' [] →
         match Groq env key with
         | Ok _ => Q (Ok {| model := str "llama3-70b-8192" |}) s'
         | Raise e => Q (Raise e) s'
         end) →
  outcome (PersonaGenerator_init key) env s Q.
Proof.
  intros HQ. unfold PersonaGenerator_init. apply outcome_bind.
  unfold outcome, call. cbn [fst snd].
  specialize (HQ (log s [EvGroqInit key])
              (seen_log_boring q Hq s (EvGroqInit key) eq_refl)).
  by destruct (Groq env key).
Qed.

Lemma outcome_chat req env s (Q : result (list N) → state → Prop) :
  (∀ s', seen q s s' [EvChatCompletion req] →
         Q (chat_completions_create env (requests s) req) s') →
  outcome (create_chat_completion req) env s Q.
Proof.
  intros HQ. apply HQ. unfold seen, create_chat_completion. simpl.
  apply observe_app.
Qed.

Lemma outcome_generate_persona self ud env s
    (Q : result (list N) → state → Prop) :
  (∀ s', seen q s s' [EvChatCompletion (synthesis_request self ud)] →
         match chat_completions_create env (requests s)
                 (synthesis_request self ud) with
         | Ok persona => Q (Ok persona) s'
         | Raise e =>
           Q (Raise (Exn PlainException
                       (str "Error generating persona: " ++ exn_str e))) s'
         end) →
  outcome (generate_persona self ud) env s Q.
Proof.
  intros HQ. unfold generate_persona. apply outcome_try, outcome_chat.
  intros s' Hs'. specialize (HQ s' Hs').
  by destruct (chat_completions_create env _ _).
Qed.

Lemma outcome_scrape name limit env s (Q : result user_data → state → Prop) :
  (∀ s',
     match (identity_check env name).1 with
     | Some e =>
       seen q s s' (identity_check env name).2 →
       Q (Raise (Exn PlainException
                   (str "Error scraping user data: " ++ exn_str e))) s'
     | None =>
       seen q s s' (fetches env name limit) →
       Q (Ok (collected env name limit)) s'
     end) →
  outcome (scrape_user_data name limit) env s Q.
Proof.
  intros HQ. unfold outcome, fetches in *. rewrite scrape_user_data_run.
  destruct (identity_check env name) as [[e|] evs]; cbn [fst snd] in *.
  - apply HQ, seen_log.
  - apply HQ. eapply seen_same; [|apply seen_log].
    rewrite !(observe_app q). f_equal.
    rewrite (observe_cons q (EvSubmissionsNew name limit)).
    rewrite (observe_app q (warning _ _)), (observe_warning q Hq).
    rewrite (observe_cons q (EvCommentsNew name limit) (warning _ _)).
    rewrite (observe_warning q Hq), app_nil_r.
    by rewrite (observe_cons q (EvSubmissionsNew name limit) [_]).
Qed.

Lemma outcome_save_persona persona name env s
    (Q : result (list N) → state → Prop) :
  (∀ r s', seen q s s' [] → Q r s') →
  outcome (save_persona persona name) env s Q.
Proof. apply outcome_quiet, quiet_save_persona. Qed.

Lemma cli_failure_status e env s :
  ((cli_report_failure e ≫= λ _, mret 1%Z) env s).1 = Ok 1%Z.
Proof.
  unfold cli_report_failure, print, emit, str_lower. rewrite !bind_run. cbn.
  repeat (rewrite bind_run; cbn).
  by repeat case_match.
Qed.

Lemma outcome_cli_failure e env s (Q : result Z → state → Prop) :
  (∀ s', seen q s s' [] → Q (Ok 1%Z) s') →
  outcome (cli_report_failure e ≫= λ _, mret 1%Z) env s Q.
Proof.
  intros HQ. unfold outcome. rewrite cli_failure_status. apply HQ.
  apply (quiet_bind q); [apply quiet_cli_report_failure | intros; apply quiet_ret].
Qed.

Lemma st_failure_status e env s : (st_report_failure e env s).1 = Ok tt.
Proof.
  unfold st_report_failure, st, emit, str_lower. rewrite !bind_run. cbn.
  repeat (rewrite bind_run; cbn).
  by repeat case_match.
Qed.

Lemma outcome_st_failure e env s (Q : result unit → state → Prop) :
  (∀ s', seen q s s' [] → Q (Ok tt) s') →
  outcome (st_report_failure e) env s Q.
Proof.
  intros HQ. unfold outcome. rewrite st_failure_status. apply HQ.
  apply quiet_st_report_failure.
Qed.

End Rules.

(** *** What the shells leave in the trace *)

Section Summaries.

Context (q : event → bool) (Hq : ignores_boring q).

(** Fold the step [H : seen q cur next evs'] into the running summary
    [Hs : seen q s cur evs]. *)
Ltac merge H :=
  match goal with
  | Hs : seen q ?s ?cur ?evs |- _ =>
    lazymatch type of H with
    | seen q cur ?next ?evs' =>
      let Hn := fresh in
      pose proof (seen_trans q _ _ _ _ _ Hs H) as Hn;
      rewrite ?app_nil_r, ?app_nil_l in Hn;
      clear Hs H; rename Hn into Hs
    end
  end.

Ltac print_step :=
  apply outcome_bind, (outcome_print q Hq);
  let s' := fresh "s" in
  let H := fresh "H" in
  intros s' H; merge H; cbv beta iota.

Ltac cli_failed :=
  cbv beta iota; apply (outcome_cli_failure q Hq);
  let s' := fresh "s" in
  let H := fresh "H" in
  intros s' H; merge H; cbv beta iota zeta.

Lemma cli_run_summary cfg args env s :
  outcome (command_line_interface cfg args) env s (cli_summary q cfg args env s).
Proof.
  unfold command_line_interface, cli_summary.
  pose proof (seen_refl q s) as Hs.
  apply outcome_try.
  do 3 print_step.
  apply outcome_bind, (outcome_RedditScraper q Hq). intros ? H. merge H.
  destruct (praw_Reddit env _ _ _) as [[]|e0]; [|cli_failed; by split].
  print_step.
  apply outcome_bind, outcome_lift.
  destruct (extract_username_from_url (args_url args)) as [name|e1];
    [|cli_failed; by split].
  do 2 print_step.
  apply outcome_bind, (outcome_scrape q Hq). intros ?.
  destruct (identity_check env name).1 as [e2|] eqn:Hid; intros H; merge H;
    [cli_failed; by split|].
  do 2 print_step.
  apply outcome_bind, (outcome_PersonaGenerator_init q Hq). intros ? H. merge H.
  destruct (Groq env (GROQ_API_KEY cfg)) as [[]|e3]; [|cli_failed; by split].
  cbv beta iota.
  apply outcome_bind, (outcome_chat q). intros ? H.
  match type of H with seen _ ?cur _ _ => set (n := requests cur) end.
  merge H.
  destruct (chat_completions_create env n _) as [reply|e4] eqn:Htest.
  2:{ cli_failed. exists n. rewrite Htest. by split. }
  cbv beta iota.
  apply outcome_bind, (outcome_generate_persona q). intros ? H.
  match type of H with seen _ ?cur _ _ => set (n' := requests cur) end.
  merge H.
  destruct (chat_completions_create env n' _) as [persona|e5] eqn:Hsynth.
  2:{ cli_failed. exists n. rewrite Htest. exists n'. rewrite Hsynth.
      split; [done|]. by rewrite <- app_assoc in Hs. }
  print_step.
  apply outcome_bind, (outcome_save_persona q Hq). intros [path|e6] ? H; merge H.
  2:{ cli_failed. exists n. rewrite Htest. exists n'. rewrite Hsynth.
      split; [by right|]. by rewrite <- app_assoc in Hs. }
  do 9 print_step.
  apply outcome_ret. cbv beta iota zeta.
  exists n. rewrite Htest. exists n'. rewrite Hsynth.
  split; [by left|]. by rewrite <- app_assoc in Hs.
Qed.

Lemma seen_boring s s' ev : boring ev = true → seen q s s' [ev] → seen q s s' [].
Proof. intros Hev. apply seen_same. by apply observe_boring. Qed.

Ltac widget_step :=
  apply outcome_bind, (outcome_st q);
  let s' := fresh "s" in
  let H := fresh "H" in
  intros s' H; apply seen_boring in H; [|reflexivity]; merge H; cbv beta iota.

Ltac st_failed :=
  cbv beta iota; apply (outcome_st_failure q Hq);
  let s' := fresh "s" in
  let H := fresh "H" in
  intros s' H; merge H; cbv beta iota zeta.


End Summaries.

(** *** The two observations *)

Section KeyEvents.

Lemma key_ignores_boring : ignores_boring is_key_event.
Proof. intros [| | | | | | | |[]]; done. Qed.

Lemma api_ignores_boring : ignores_boring is_content_api_call.
Proof. intros [| | | | | | | |[]]; done. Qed.

Lemma identity_events_fetch env name :
  Forall (λ ev, ev = EvRedditorFetch name) (identity_check env name).2.
Proof.
  unfold identity_check.
  destruct (redditor_hasattr_id env name) as [[|]|];
    [|destruct (redditor_id env name)|]; repeat constructor.
Qed.

Lemma observe_all q tr : Forall (λ ev, q ev = true) tr → observe q tr = tr.
Proof. apply filter_all. Qed.

Lemma observe_none q tr : Forall (λ ev, q ev = false) tr → observe q tr = [].
Proof.
  induction 1 as [|ev tr Hev _ IH]; [done|]. unfold observe in *. simpl.
  by rewrite Hev.
Qed.

Lemma observe_key_identity env name :
  observe is_key_event (identity_check env name).2 = [].
Proof.
  apply observe_none. eapply Forall_impl; [apply identity_events_fetch|].
  by intros ev ->.
Qed.

Lemma observe_api_identity env name :
  observe is_content_api_call (identity_check env name).2
  = (identity_check env name).2.
Proof.
  apply observe_all. eapply Forall_impl; [apply identity_events_fetch|].
  by intros ev ->.
Qed.

Lemma observe_key_fetches env name limit :
  observe is_key_event (fetches env name limit) = [].
Proof.
  unfold fetches. by rewrite observe_app, observe_key_identity.
Qed.

Lemma observe_api_fetches env name limit :
  observe is_content_api_call (fetches env name limit) = fetches env name limit.
Proof.
  unfold fetches. by rewrite observe_app, observe_api_identity.
Qed.

Lemma observe_key_requests reqs :
  observe is_key_event (EvChatCompletion <$> reqs) = EvChatCompletion <$> reqs.
Proof. apply observe_all, Forall_fmap, Forall_true. done. Qed.

Lemma observe_api_requests reqs :
  observe is_content_api_call (EvChatCompletion <$> reqs) = [].
Proof. apply observe_none, Forall_fmap, Forall_true. done. Qed.

Lemma chat_requests_observe tr :
  chat_requests (observe is_key_event tr) = chat_requests tr.
Proof.
  induction tr as [|ev tr IH]; [done|].
  destruct ev as [| | | | | | | |[]]; simpl; by rewrite ?IH.
Qed.

Lemma chat_requests_app a b :
  chat_requests (a ++ b) = chat_requests a ++ chat_requests b.
Proof. apply omap_app. Qed.


Lemma chat_requests_fetches env name limit :
  chat_requests (fetches env name limit) = [].
Proof. by rewrite <- chat_requests_observe, observe_key_fetches. Qed.

Lemma chat_requests_seen s s' evs :
  seen is_key_event s s' evs →
  chat_requests (trace s') = chat_requests (trace s) ++ chat_requests evs.
Proof.
  unfold seen. intros H.
  rewrite <- (chat_requests_observe (trace s')), H, chat_requests_app.
  by rewrite !chat_requests_observe.
Qed.

Lemma elem_of_observe q ev tr : q ev = true → ev ∈ tr → ev ∈ observe q tr.
Proof.
  intros Hev Hin. apply list_elem_of_In, List.filter_In.
  split; [by apply list_elem_of_In | done].
Qed.


(** The command line asks the content API for the account, and when the
    account check passes for its posts and comments, whether or not the
    LLM key is configured. *)
Lemma cli_fetches_whatever_the_llm_key cfg args env s name :
  praw_Reddit env (REDDIT_CLIENT_ID cfg) (REDDIT_CLIENT_SECRET cfg) USER_AGENT
  = Ok tt →
  extract_username_from_url (args_url args) = Ok name →
  observe is_content_api_call (trace (command_line_interface cfg args env s).2)
  = observe is_content_api_call (trace s)
    ++ match (identity_check env name).1 with
       | Some _ => (identity_check env name).2
       | None => fetches env name (args_depth args)
       end.
Proof.
  intros Hreddit Hname.
  pose proof (cli_run_summary _ api_ignores_boring cfg args env s) as H.
  unfold outcome, cli_summary in H. rewrite Hreddit, Hname in H.
  destruct (identity_check env name).1.
  { destruct H as [_ ->]. by rewrite observe_api_identity. }
  assert (∀ reqs,
            seen is_content_api_call s (command_line_interface cfg args env s).2
              (fetches env name (args_depth args) ++ (EvChatCompletion <$> reqs)) →
            observe is_content_api_call
              (trace (command_line_interface cfg args env s).2)
            = observe is_content_api_call (trace s)
              ++ fetches env name (args_depth args)) as Hseen.
  { intros reqs ->.
    by rewrite observe_app, observe_api_fetches, observe_api_requests, app_nil_r. }
  destruct (Groq env _).
  2:{ destruct H as [_ H]. apply (Hseen []). by rewrite app_nil_r. }
  destruct H as [n H]. destruct (chat_completions_create env n _).
  2:{ destruct H as [_ H].
      by apply (Hseen [test_request (model_name (args_model args))]). }
  destruct H as [n' H].
  destruct (chat_completions_create env n' _); destruct H as [_ H];
    by eapply Hseen.
Qed.




End KeyEvents.

(** * The claims *)

Section Claims.

Implicit Types (url name persona : list N) (env : Env) (s : state).

(** The dashboard checks the LLM key before it builds any client: without
    the key the click ends with one error message and no request. *)
Lemma streamlit_checks_llm_key_first cfg url limit m env s :
  truthy_opt (GROQ_API_KEY cfg) = false →
  ∃ message,
    streamlit_app cfg url limit m env s = (Ok tt, log s [EvSt (st_error message)]).
Proof.
  intros Hkey. unfold streamlit_app. rewrite Hkey.
  destruct (negb (truthy url)); [by eexists|].
  destruct (negb (truthy_opt (REDDIT_CLIENT_ID cfg)) || _); by eexists.
Qed.

(** C1 fails on the command line: with [GROQ_API_KEY] absent, valid Reddit
    credentials and a valid URL, the run asks the content API for the
    account, its posts and its comments, and only then fails on building
    the LLM client (in general: [cli_fetches_whatever_the_llm_key]). *)
Theorem cli_fetches_before_llm_key_is_missed :
  truthy_opt (GROQ_API_KEY no_llm_config) = false
  ∧ command_line_interface no_llm_config alice_args alice_env (initial_state ∅)
    = (Ok 1%Z,
       {| trace :=
            [ EvPrint (str "🧠 Digital Persona Analyzer v2.0");
              EvPrint (str "========================================");
              EvPrint (str "🔄 Initializing Reddit data collector...");
              EvRedditInit (Some (str "id")) (Some (str "secret"))
                (str "DigitalPersonaAnalyzer/2.0");
              EvPrint (str "👤 Extracting user identity...");
              EvPrint (str "✅ Target identified: u/alice");
              EvPrint (str "📥 Collecting digital footprint...");
              EvRedditorFetch (str "alice");
              EvSubmissionsNew (str "alice") 100;
              EvCommentsNew (str "alice") 100;
              EvPrint (str "✅ Collected 3 posts and 0 comments");
              EvPrint (str "🧠 Performing AI analysis with llama3-70b-8192...");
              EvGroqInit None;
              EvPrint (str "❌ Analysis failed: The api_key client option must be set either by passing api_key to the client or by setting the GROQ_API_KEY environment variable");
              EvPrint (str "🔑 Invalid Groq API credentials. Please verify your configuration.") ];
          fs := ∅; requests := 0; ticks := 0 |}).
Proof. split; vm_compute; reflexivity. Qed.




(** C3 fails: [--output] is parsed and never read. Two command lines that
    differ only in that flag run the same computation, and with
    [--output results] the report is written under [output]. *)
Theorem cli_output_flag_is_ignored :
  (∀ cfg url depth m out,
     command_line_interface cfg
       {| args_url := url; args_depth := depth; args_model := m;
          args_output := out |}
     = command_line_interface cfg
         {| args_url := url; args_depth := depth; args_model := m;
            args_output := str "output" |})
  ∧ let run := command_line_interface full_config results_args alice_env
                 (initial_state ∅) in
    args_output results_args = str "results"
    ∧ run.1 = Ok 0%Z
    ∧ fs run.2 !! str "output/alice_digital_profile.txt"
      = Some (File (report_text (str "Reddit Username: alice") sample_time))
    ∧ fs run.2 !! str "results" = None
    ∧ fs run.2 !! str "results/alice_digital_profile.txt" = None
    ∧ trace run.2 !! 18
      = Some (EvPrint (str "📁 Report saved: output/alice_digital_profile.txt")).
Proof.
  split; [reflexivity|].
  repeat split; vm_compute; reflexivity.
Qed.

(** C4, as stated, fails: of three posts the second has no title; the
    excerpt has two POST lines, not three. *)
Lemma untitled_post_counterexample :
  length (posts untitled_data) = 3
  ∧ comments untitled_data = []
  ∧ content_lines untitled_data
    = [ str "POST [p1]: Hello"; str "POST [p3]: Question" ]
  ∧ length (List.filter is_post_line (content_lines untitled_data)) ≠ 3.
Proof. by vm_compute. Qed.

(** C4, amended. The excerpt holds one line for each of the first 50 posts
    that has a title, in collector order, each combining the post's id, its
    title and, when the body is not empty, the first 500 characters of the
    body; posts without a title give no line. The comment lines follow. In
    particular a result with exactly 3 posts, all titled, and no comment
    yields exactly 3 POST lines and no COMMENT line. *)
Theorem excerpt_post_lines (ud : user_data) :
  content_lines ud
  = map post_line (List.filter has_title (take 50 (posts ud)))
    ++ map comment_line (List.filter long_body (take 50 (comments ud)))
  ∧ _prepare_content ud = join [NL; NL] (content_lines ud)
  ∧ (length (posts ud) = 3 →
     Forall (λ p, p_title p ≠ []) (posts ud) →
     comments ud = [] →
     List.filter is_post_line (content_lines ud) = map post_line (posts ud)
     ∧ length (List.filter is_post_line (content_lines ud)) = 3
     ∧ List.filter is_comment_line (content_lines ud) = []).
Proof.
  split; [apply content_lines_spec|]. split; [done|].
  intros Hlen Htitles Hnone.
  rewrite post_lines_of_content, comment_lines_of_content, Hnone.
  rewrite firstn_all2 by lia.
  rewrite filter_all.
  - split; [done|]. split; [by rewrite length_map | done].
  - eapply Forall_impl; [exact Htitles|]. intros p Hp. unfold has_title.
    cbn beta in Hp. destruct (p_title p); [by destruct Hp | done].
Qed.

(** C4 at work: the three titled posts of [alice_env] give three POST lines. *)
Lemma excerpt_post_lines_witness :
  let ud := collected alice_env (str "alice") 100 in
  length (List.filter is_post_line (content_lines ud)) = 3
  ∧ List.filter is_comment_line (content_lines ud) = [].
Proof.
  intros ud.
  assert (length (posts ud) = 3) as Hlen by by vm_compute.
  assert (Forall (λ p, p_title p ≠ []) (posts ud)) as Htitles
    by (repeat constructor; by vm_compute).
  assert (comments ud = []) as Hnone by by vm_compute.
  destruct (proj2 (proj2 (excerpt_post_lines ud)) Hlen Htitles Hnone)
    as (_ & Hposts & Hcomments).
  split; [exact Hposts | exact Hcomments].
Defined.

(** C5. The resolver returns [name] exactly when [name] is the path
    segment that follows the leftmost occurrence of the first shape, in the
    order [.../u/], [.../user/], [.../users/], that the URL has; it fails
    with the "Invalid Reddit URL format" error exactly when the URL has
    none of the three shapes, and it never fails in another way. *)
Theorem extract_username_spec url :
  (∀ name, extract_username_from_url url = Ok name ↔ resolves_to url name)
  ∧ (extract_username_from_url url = Raise (invalid_format url)
     ↔ ∀ lit, lit ∈ shapes → ¬ has_shape lit url)
  ∧ (∀ e, extract_username_from_url url = Raise e →
          e = Exn ValueError (str "Invalid Reddit URL format: " ++ url)).
Proof.
  split; [intros name; apply extract_Ok|]. split; [apply extract_Raise|].
  unfold extract_username_from_url. intros e.
  destruct (first_match patterns url); [done | by intros [= <-]].
Qed.

(** C5 at work: a profile URL with a trailing slash resolves to [alice]; a
    subreddit URL has none of the shapes. *)
Lemma extract_username_spec_witness :
  resolves_to (str "https://www.reddit.com/user/alice/") (str "alice")
  ∧ (∀ lit, lit ∈ shapes → ¬ has_shape lit (str "https://old.reddit.com/r/rust/")).
Proof.
  split.
  - apply (proj1 (extract_username_spec _)). reflexivity.
  - apply (proj1 (proj2 (extract_username_spec _))). reflexivity.
Defined.

(** C6. The excerpt has at most min(N, 50) POST lines and at most
    min(M, 50) COMMENT lines; each line is built from one of the first 50
    posts or comments and carries at most the first 500 characters of its
    body; the comments that give a line are exactly those whose body is
    longer than 10 characters, and a comment whose body has at most 10
    characters adds nothing to the excerpt. *)
Theorem excerpt_bounds (ud : user_data) :
  length (List.filter is_post_line (content_lines ud))
    ≤ min (length (posts ud)) 50
  ∧ length (List.filter is_comment_line (content_lines ud))
    ≤ min (length (comments ud)) 50
  ∧ Forall (λ l,
      (∃ p body, p ∈ take 50 (posts ud)
         ∧ body = take 500 (p_selftext p) ∧ length body ≤ 500
         ∧ (l = str "POST [" ++ p_id p ++ str "]: " ++ p_title p
            ∨ l = str "POST [" ++ p_id p ++ str "]: " ++ p_title p
                  ++ str " - " ++ body))
      ∨ (∃ c body, c ∈ take 50 (comments ud)
           ∧ 10 < length (c_body c)
           ∧ body = take 500 (c_body c) ∧ length body ≤ 500
           ∧ l = str "COMMENT [" ++ c_id c ++ str "]: " ++ body))
      (content_lines ud)
  ∧ List.filter is_comment_line (content_lines ud)
    = map comment_line
        (List.filter (λ c, (10 <? len (c_body c))%Z) (take 50 (comments ud)))
  ∧ (∀ c content, length (c_body c) ≤ 10 → add_comment content c = content).
Proof.
  split; [|split; [|split; [|split]]].
  - rewrite post_lines_of_content, length_map.
    etransitivity; [apply filter_length_le|].
    rewrite length_take. lia.
  - rewrite comment_lines_of_content, length_map.
    etransitivity; [apply filter_length_le|].
    rewrite length_take. lia.
  - rewrite content_lines_spec. apply Forall_app. split.
    + apply Forall_map, Forall_forall. intros p Hp.
      apply list_elem_of_In, List.filter_In in Hp as [Hp _].
      apply list_elem_of_In in Hp.
      left. exists p, (take 500 (p_selftext p)).
      split; [done|]. split; [done|].
      split; [rewrite length_take; lia|].
      unfold post_line. destruct (truthy (p_selftext p)).
      * by right.
      * left. by rewrite app_nil_r.
    + apply Forall_map, Forall_forall. intros c Hc.
      apply list_elem_of_In, List.filter_In in Hc as [Hc Hlong].
      apply list_elem_of_In in Hc.
      right. exists c, (take 500 (c_body c)).
      split; [done|]. split.
      { unfold long_body, len in Hlong. apply Z.ltb_lt in Hlong. lia. }
      split; [done|]. split; [rewrite length_take; lia | done].
  - apply comment_lines_of_content.
  - intros c content Hshort. rewrite add_comment_spec.
    unfold long_body, len.
    destruct (Z.ltb_spec 10 (Z.of_nat (length (c_body c)))); [lia|].
    apply app_nil_r.
Qed.

(** C6 at work: a comment of seven characters adds no line. *)
Lemma excerpt_bounds_witness :
  add_comment [str "POST [p1]: Hello"]
    (comment_of_comment (reddit_comment (str "c9") (str "Thanks!")))
  = [str "POST [p1]: Hello"].
Proof.
  destruct (excerpt_bounds untitled_data) as (_ & _ & _ & _ & Hshort).
  apply Hshort. vm_compute. lia.
Defined.




(** C8. The counts of a Collection Result are the lengths of its two
    sequences, which hold exactly the items the listings yielded, whatever
    the requested limit. *)
Theorem counts_are_lengths env s name limit (r : user_data) s' :
  scrape_user_data name limit env s = (Ok r, s') →
  total_posts r = len (posts r)
  ∧ total_comments r = len (comments r)
  ∧ posts r = map post_of_submission (yielded (submissions_new env name limit))
  ∧ comments r = map comment_of_comment (yielded (comments_new env name limit)).
Proof.
  rewrite scrape_user_data_run.
  destruct (identity_check env name) as [[e|] evs]; [done|].
  by intros [= <- _].
Qed.

(** C8 at work: with a limit of 100 and three posts on the account, the
    counts are 3 and 0. *)
Lemma counts_are_lengths_witness :
  ∃ r, (scrape_user_data (str "alice") 100 alice_env (initial_state ∅)).1 = Ok r
       ∧ total_posts r = 3%Z ∧ total_comments r = 0%Z.
Proof.
  eexists. split; [reflexivity|].
  destruct (counts_are_lengths alice_env (initial_state ∅) (str "alice") 100
              _ _ eq_refl) as (Hp & Hc & _).
  split; [exact Hp | exact Hc].
Defined.

(** C9. A username returned by the resolver is not empty and holds no
    '/'; for such a username the report path is
    [output/<username>_digital_profile.txt], whose directory is [output]
    and whose file name is a single path component, and the report writer
    changes nothing in the file system but the directory [output] and
    that file. *)
Theorem resolved_username_stays_in_output url name persona env s :
  extract_username_from_url url = Ok name →
  name ≠ [] ∧ (SLASH ∉ name)
  ∧ os_path_join (str "output") (name ++ str "_digital_profile.txt")
    = report_path name
  ∧ dirname (report_path name) = str "output"
  ∧ (SLASH ∉ name ++ str "_digital_profile.txt")
  ∧ (∀ path s', save_persona persona name env s = (Ok path, s') →
                path = report_path name)
  ∧ (∀ q, q ≠ str "output" → q ≠ report_path name →
          fs (save_persona persona name env s).2 !! q = fs s !! q).
Proof.
  intros Hname. apply extract_Ok, resolves_to_segment in Hname as [Hne Hno].
  pose proof (join_report_path _ (no_slash_startswith _ Hno)) as Hjoin.
  split; [done|]. split; [done|]. split; [done|].
  split; [by apply dirname_report_path|].
  split; [by apply suffix_no_slash|]. split.
  - intros path s' Hrun. apply save_persona_path in Hrun. congruence.
  - intros q Hout Hq. apply save_persona_frame; [done | congruence].
Qed.

(** C9 at work: the report of [alice] lies in [output], and writing it
    leaves [/etc/passwd] as it was. *)
Lemma resolved_username_stays_in_output_witness :
  dirname (report_path (str "alice")) = str "output"
  ∧ fs (save_persona (str "profile") (str "alice") alice_env (initial_state ∅)).2
      !! str "/etc/passwd" = None.
Proof.
  pose proof (resolved_username_stays_in_output
                (str "https://www.reddit.com/user/alice/") (str "alice")
                (str "profile") alice_env (initial_state ∅) eq_refl)
    as (_ & _ & _ & Hdir & _ & _ & Hframe).
  split; [exact Hdir|].
  rewrite Hframe; [reflexivity | discriminate | discriminate].
Defined.



End Claims.

(** * Further properties *)

(** ** The effects of a run, stage by stage *)

Section Advance.

Context (q : event → bool) (Hq : ignores_boring q).

Lemma advance_refl s : advance q s s [] 0 0.
Proof. split; [apply seen_refl | done]. Qed.

Lemma advance_trans s s1 s2 evs1 evs2 k1 k2 t1 t2 :
  advance q s s1 evs1 k1 t1 → advance q s1 s2 evs2 k2 t2 →
  advance q s s2 (evs1 ++ evs2) (k2 + k1) (t2 + t1).
Proof.
  intros (H1 & Hf1 & Hr1 & Ht1) (H2 & Hf2 & Hr2 & Ht2).
  split; [by eapply seen_trans|]. repeat split; [congruence | lia | lia].
Qed.

Lemma advance_log s evs : advance q s (log s evs) evs 0 0.
Proof. split; [apply seen_log | done]. Qed.

Lemma advance_boring s ev : boring ev = true → advance q s (log s [ev]) [] 0 0.
Proof. intros Hev. split; [by apply seen_log_boring | done]. Qed.

Lemma advance_same s s' evs evs' k t :
  observe q evs = observe q evs' → advance q s s' evs k t → advance q s s' evs' k t.
Proof. intros Heq (H & ?). split; [by eapply seen_same | done]. Qed.

Lemma effects_emit_boring ev env s (Q : result unit → state → Prop) :
  boring ev = true →
  (∀ s', advance q s s' [] 0 0 → Q (Ok tt) s') → outcome (emit ev) env s Q.
Proof. intros Hev HQ. apply HQ. by apply advance_boring. Qed.

Lemma effects_emit ev env s (Q : result unit → state → Prop) :
  (∀ s', advance q s s' [ev] 0 0 → Q (Ok tt) s') → outcome (emit ev) env s Q.
Proof. intros HQ. apply HQ, advance_log. Qed.

Lemma effects_call {A} ev (answer : Env → result A) env s
    (Q : result A → state → Prop) :
  boring ev = true →
  (∀ s', advance q s s' [] 0 0 → Q (answer env) s') →
  outcome (call ev answer) env s Q.
Proof. intros Hev HQ. apply HQ. by apply advance_boring. Qed.

Lemma effects_now env s (Q : result datetime → state → Prop) :
  (∀ s', advance q s s' [] 0 1 → Q (Ok (datetime_now env (ticks s))) s') →
  outcome now env s Q.
Proof. intros HQ. apply HQ. split; [by apply quiet_now | done]. Qed.

Lemma effects_PersonaGenerator_init key env s
    (Q : result PersonaGenerator → state → Prop) :
  (∀ s', advance q s s' [] 0 0 →
         match Groq env key with
         | Ok _ => Q (Ok {| model := str "llama3-70b-8192" |}) s'
         | Raise e => Q (Raise e) s'
         end) →
  outcome (PersonaGenerator_init key) env s Q.
Proof.
  intros HQ. unfold PersonaGenerator_init. apply outcome_bind.
  unfold outcome, call. cbn [fst snd].
  specialize (HQ (log s [EvGroqInit key])
              (advance_boring s (EvGroqInit key) eq_refl)).
  by destruct (Groq env key).
Qed.

Lemma effects_chat req env s (Q : result (list N) → state → Prop) :
  (∀ s', advance q s s' [EvChatCompletion req] 1 0 →
         Q (chat_completions_create env (requests s) req) s') →
  outcome (create_chat_completion req) env s Q.
Proof.
  intros HQ. apply HQ. split; [|done].
  unfold seen, create_chat_completion. simpl. apply observe_app.
Qed.

Lemma effects_generate_persona self ud env s
    (Q : result (list N) → state → Prop) :
  (∀ s', advance q s s' [EvChatCompletion (synthesis_request self ud)] 1 0 →
         match chat_completions_create env (requests s)
                 (synthesis_request self ud) with
         | Ok persona => Q (Ok persona) s'
         | Raise e =>
           Q (Raise (Exn PlainException
                       (str "Error generating persona: " ++ exn_str e))) s'
         end) →
  outcome (generate_persona self ud) env s Q.
Proof.
  intros HQ. unfold generate_persona. apply outcome_try, effects_chat.
  intros s' Hs'. specialize (HQ s' Hs').
  by destruct (chat_completions_create env _ _).
Qed.

Lemma effects_scrape name limit env s (Q : result user_data → state → Prop) :
  (∀ s',
     match (identity_check env name).1 with
     | Some e =>
       advance q s s' (identity_check env name).2 0 0 →
       Q (Raise (Exn PlainException
                   (str "Error scraping user data: " ++ exn_str e))) s'
     | None =>
       advance q s s' (fetches env name limit) 0 0 →
       Q (Ok (collected env name limit)) s'
     end) →
  outcome (scrape_user_data name limit) env s Q.
Proof.
  intros HQ. unfold outcome, fetches in *. rewrite scrape_user_data_run.
  destruct (identity_check env name) as [[e|] evs]; cbn [fst snd] in *.
  - apply HQ, advance_log.
  - apply HQ. eapply advance_same; [|apply advance_log].
    rewrite !(observe_app q). f_equal.
    rewrite (observe_cons q (EvSubmissionsNew name limit)).
    rewrite (observe_app q (warning _ _)), (observe_warning q Hq).
    rewrite (observe_cons q (EvCommentsNew name limit) (warning _ _)).
    rewrite (observe_warning q Hq), app_nil_r.
    by rewrite (observe_cons q (EvSubmissionsNew name limit) [_]).
Qed.

Lemma cli_failure_state e env s :
  let s' := ((cli_report_failure e ≫= λ _, mret 1%Z) env s).2 in
  fs s' = fs s ∧ requests s' = requests s ∧ ticks s' = ticks s.
Proof.
  cbv zeta.
  unfold cli_report_failure, print, emit, str_lower. rewrite !bind_run. cbn.
  repeat (rewrite bind_run; cbn).
  do 3 (destruct (contains _ _); [done|]). done.
Qed.

Lemma effects_cli_failure e env s (Q : result Z → state → Prop) :
  (∀ s', advance q s s' [] 0 0 → Q (Ok 1%Z) s') →
  outcome (cli_report_failure e ≫= λ _, mret 1%Z) env s Q.
Proof.
  intros HQ. unfold outcome. rewrite cli_failure_status. apply HQ.
  destruct (cli_failure_state e env s) as (? & ? & ?).
  split; [|done].
  apply (quiet_bind q); [by apply quiet_cli_report_failure | intros; apply quiet_ret].
Qed.

Lemma st_failure_state e env s :
  let s' := (st_report_failure e env s).2 in
  fs s' = fs s ∧ requests s' = requests s ∧ ticks s' = ticks s.
Proof.
  cbv zeta.
  unfold st_report_failure, st, emit, str_lower. rewrite !bind_run. cbn.
  repeat (rewrite bind_run; cbn).
  do 3 (destruct (contains _ _); [done|]). done.
Qed.

Lemma effects_st_failure e env s (Q : result unit → state → Prop) :
  (∀ s', advance q s s' [] 0 0 → Q (Ok tt) s') →
  outcome (st_report_failure e) env s Q.
Proof.
  intros HQ. unfold outcome. rewrite st_failure_status. apply HQ.
  destruct (st_failure_state e env s) as (? & ? & ?).
  split; [by apply quiet_st_report_failure | done].
Qed.

(** Fold the step [H : advance q cur next evs' k' t'] into the running
    account [Hs : advance q s cur evs k t]. *)
Ltac merge H :=
  match goal with
  | Hs : advance q ?s ?cur ?evs ?k ?t |- _ =>
    lazymatch type of H with
    | advance q cur ?next ?evs' ?k' ?t' =>
      let Hn := fresh in
      pose proof (advance_trans _ _ _ _ _ _ _ _ _ Hs H) as Hn;
      cbn [Nat.add] in Hn;
      rewrite ?app_nil_r, ?app_nil_l in Hn;
      clear Hs H; rename Hn into Hs
    end
  end.

Ltac print_step :=
  apply outcome_bind, effects_emit_boring; [reflexivity|];
  let s' := fresh "s" in
  let H := fresh "H" in
  intros s' H; merge H; cbv beta iota.

Ltac cli_failed :=
  cbv beta iota; apply effects_cli_failure;
  let s' := fresh "s" in
  let H := fresh "H" in
  intros s' H; merge H; cbv beta iota zeta.

Ltac st_failed :=
  cbv beta iota; apply effects_st_failure;
  let s' := fresh "s" in
  let H := fresh "H" in
  intros s' H; merge H; cbv beta iota zeta.

Lemma cli_run_effects cfg args env s :
  outcome (command_line_interface cfg args) env s (cli_effects q cfg args env s).
Proof.
  unfold command_line_interface, cli_effects.
  pose proof (advance_refl s) as Hs.
  apply outcome_try.
  do 3 print_step.
  apply outcome_bind, effects_call; [reflexivity|]. intros ? H. merge H.
  destruct (praw_Reddit env _ _ _) as [[]|e0]; [|cli_failed; by split].
  print_step.
  apply outcome_bind, outcome_lift.
  destruct (extract_username_from_url (args_url args)) as [name|e1];
    [|cli_failed; by split].
  do 2 print_step.
  apply outcome_bind, effects_scrape. intros ?.
  destruct (identity_check env name).1 as [e2|] eqn:Hid; intros H; merge H;
    [cli_failed; by split|].
  do 2 print_step.
  apply outcome_bind, effects_PersonaGenerator_init. intros ? H. merge H.
  destruct (Groq env (GROQ_API_KEY cfg)) as [[]|e3]; [|cli_failed; by split].
  cbv beta iota.
  apply outcome_bind, effects_chat. intros ? H.
  match type of H with
  | advance _ ?cur _ _ _ _ =>
    replace (requests cur) with (requests s)
      by (destruct Hs as (_ & _ & -> & _); done)
  end.
  merge H.
  destruct (chat_completions_create env (requests s) _) as [reply|e4] eqn:Htest;
    [|cli_failed; by split].
  cbv beta iota.
  apply outcome_bind, effects_generate_persona. intros ? H.
  match type of H with
  | advance _ ?cur _ _ _ _ =>
    replace (requests cur) with (S (requests s))
      by (destruct Hs as (_ & _ & -> & _); done)
  end.
  merge H. rewrite <- app_assoc in Hs.
  destruct (chat_completions_create env (S (requests s)) _)
    as [persona|e5] eqn:Hsynth; [|cli_failed; by split].
  print_step.
  apply outcome_bind. unfold outcome at 1.
  match goal with
  | |- context [save_persona persona name env ?cur] =>
    rename Hs into Hcur; destruct (save_persona persona name env cur)
      as [[path|e6] sw] eqn:Hsave
  end; cbn [fst snd]; pose proof (advance_refl sw) as Hs.
  2:{ cli_failed. eexists. split; [exact Hcur|]. by rewrite Hsave. }
  do 9 print_step.
  apply outcome_ret. eexists. split; [exact Hcur|]. by rewrite Hsave.
Qed.

Ltac widget_step :=
  apply outcome_bind, effects_emit_boring; [reflexivity|];
  let s' := fresh "s" in
  let H := fresh "H" in
  intros s' H; merge H; cbv beta iota.

Lemma st_run_effects cfg url limit m env s :
  outcome (streamlit_app cfg url limit m) env s
    (st_effects q cfg url limit m env s).
Proof.
  unfold streamlit_app, st_effects.
  pose proof (advance_refl s) as Hs.
  destruct (negb (truthy url)); cbn [orb].
  { apply effects_emit_boring; [reflexivity|]. by intros ? H. }
  destruct (negb (truthy_opt (REDDIT_CLIENT_ID cfg))
            || negb (truthy_opt (REDDIT_CLIENT_SECRET cfg))); cbn [orb].
  { apply effects_emit_boring; [reflexivity|]. by intros ? H. }
  destruct (negb (truthy_opt (GROQ_API_KEY cfg))).
  { apply effects_emit_boring; [reflexivity|]. by intros ? H. }
  apply outcome_try.
  do 5 widget_step.
  apply outcome_bind, effects_call; [reflexivity|]. intros ? H. merge H.
  destruct (praw_Reddit env _ _ _) as [[]|e0]; [|by st_failed].
  apply outcome_bind, outcome_lift.
  destruct (extract_username_from_url url) as [name|e1]; [|by st_failed].
  do 3 widget_step.
  apply outcome_bind, effects_scrape. intros ?.
  destruct (identity_check env name).1 as [e2|] eqn:Hid; intros H; merge H;
    [by st_failed|].
  do 2 widget_step.
  apply outcome_bind, effects_PersonaGenerator_init. intros ? H. merge H.
  destruct (Groq env (GROQ_API_KEY cfg)) as [[]|e3]; [|by st_failed].
  cbv beta iota.
  apply outcome_bind, effects_chat. intros ? H.
  match type of H with
  | advance _ ?cur _ _ _ _ =>
    replace (requests cur) with (requests s)
      by (destruct Hs as (_ & _ & -> & _); done)
  end.
  merge H.
  destruct (chat_completions_create env (requests s) _) as [reply|e4] eqn:Htest;
    [|by st_failed].
  cbv beta iota.
  apply outcome_bind, effects_generate_persona. intros ? H.
  match type of H with
  | advance _ ?cur _ _ _ _ =>
    replace (requests cur) with (S (requests s))
      by (destruct Hs as (_ & _ & -> & _); done)
  end.
  merge H. rewrite <- app_assoc in Hs.
  destruct (chat_completions_create env (S (requests s)) _)
    as [persona|e5] eqn:Hsynth; [|by st_failed].
  do 2 widget_step.
  apply outcome_bind. unfold outcome at 1.
  match goal with
  | |- context [save_persona persona name env ?cur] =>
    rename Hs into Hcur; destruct (save_persona persona name env cur)
      as [[path|e6] sw] eqn:Hsave
  end; cbn [fst snd]; pose proof (advance_refl sw) as Hs.
  2:{ st_failed. split; [done|]. eexists. split; [exact Hcur|]. by rewrite Hsave. }
  do 2 widget_step.
  apply outcome_bind, effects_emit. intros ? H. merge H. cbv beta iota.
  do 5 widget_step.
  apply outcome_bind, effects_now. intros ? H. merge H. cbv beta iota.
  do 6 widget_step.
  apply effects_emit_boring; [reflexivity|]. intros ? H. merge H.
  split; [done|]. eexists. split; [exact Hcur|]. by rewrite Hsave.
Qed.

End Advance.

(** ** Profile URLs *)

Section Profiles.

Implicit Types (lit s url name pre tail : list N) (p : regex).

Lemma host_no_slash : SLASH ∉ str "reddit.com".
Proof.
  vm_compute. intros Hin.
  repeat (apply elem_of_cons in Hin as [Hin|Hin]; [discriminate|]).
  by apply elem_of_nil in Hin.
Qed.

(** A text in which no '/' is followed by another character has none of
    the three shapes: each shape's text holds a '/' before its end. *)
Lemma match_here_last_slash p name tail :
  p ∈ patterns → SLASH ∉ name → tail = [] ∨ tail = [SLASH] →
  match_here p (name ++ tail) = None.
Proof.
  intros Hp Hname Htail. unfold match_here.
  destruct (match_literal (re_literal p) (name ++ tail)) as [rest|] eqn:Hlit;
    [|done].
  exfalso. apply match_literal_spec in Hlit.
  assert (∃ a b c, re_literal p = a ++ SLASH :: b :: c ∧ SLASH ∉ a)
    as (a & b & c & Hre & Ha).
  { exists (str "reddit.com").
    repeat (apply elem_of_cons in Hp as [->|Hp]); [| | |by apply elem_of_nil in Hp].
    - exists 117%N, (str "/"). split; [done | apply host_no_slash].
    - exists 117%N, (str "ser/"). split; [done | apply host_no_slash].
    - exists 117%N, (str "sers/"). split; [done | apply host_no_slash]. }
  rewrite Hre, <- app_assoc in Hlit. clear Hre Hp.
  revert a Ha Hlit. induction name as [|x name IH]; intros a Ha Hlit.
  - destruct Htail as [->| ->]; destruct a as [|? [|? ?]]; simplify_eq/=.
  - destruct a as [|y a]; simpl in Hlit.
    + injection Hlit as -> _. apply Hname, elem_of_cons. by left.
    + injection Hlit as -> Hlit.
      apply not_elem_of_cons in Hname as [_ Hname].
      apply not_elem_of_cons in Ha as [_ Ha]. by apply (IH Hname a).
Qed.

Lemma re_search_last_slash p name tail :
  p ∈ patterns → SLASH ∉ name → tail = [] ∨ tail = [SLASH] →
  re_search p (name ++ tail) = None.
Proof.
  intros Hp Hname Htail. induction name as [|x name IH].
  - pose proof (match_here_last_slash p [] [] Hp (not_elem_of_nil _)
                  (or_introl eq_refl)) as Hnil.
    pose proof (match_here_last_slash p [] tail Hp (not_elem_of_nil _) Htail)
      as Htl.
    cbn [app] in *. destruct Htail as [->| ->]; cbn [re_search].
    + by rewrite Hnil.
    + by rewrite Htl, Hnil.
  - cbn [app re_search].
    change (x :: name ++ tail) with ((x :: name) ++ tail).
    rewrite match_here_last_slash by done.
    apply IH. by apply not_elem_of_cons in Hname as [_ Hname].
Qed.

Lemma patterns_members :
  LiteralThenGroup (str "reddit.com/u/") ∈ patterns
  ∧ LiteralThenGroup (str "reddit.com/user/") ∈ patterns
  ∧ LiteralThenGroup (str "reddit.com/users/") ∈ patterns.
Proof.
  unfold patterns. split; [apply list_elem_of_here|].
  split; [apply list_elem_of_further, list_elem_of_here|].
  do 2 apply list_elem_of_further. apply list_elem_of_here.
Qed.

(** The letter r, with which each of the three shapes begins. *)
Lemma patterns_begin_with_r p :
  p ∈ patterns → ∃ lit, re_literal p = 114%N :: lit.
Proof.
  intros Hp.
  repeat (apply elem_of_cons in Hp as [->|Hp]); [| | |by apply elem_of_nil in Hp].
  - exists (str "eddit.com/u/"). vm_compute. reflexivity.
  - exists (str "eddit.com/user/"). vm_compute. reflexivity.
  - exists (str "eddit.com/users/"). vm_compute. reflexivity.
Qed.

Lemma re_search_skip p pre s :
  p ∈ patterns → 114%N ∉ pre → re_search p (pre ++ s) = re_search p s.
Proof.
  intros Hp Hpre. destruct (patterns_begin_with_r p Hp) as [lit Hlit].
  induction pre as [|c pre IH]; [done|].
  apply not_elem_of_cons in Hpre as [Hc Hpre].
  cbn [app re_search]. unfold match_here at 1. rewrite Hlit.
  cbn [match_literal]. destruct (N.eqb_spec 114 c) as [Heq|_]; [done|].
  by apply IH.
Qed.

Lemma re_search_here p name tail :
  name ≠ [] → SLASH ∉ name → tail = [] ∨ tail = [SLASH] →
  re_search p (re_literal p ++ name ++ tail) = Some name.
Proof.
  intros Hne Hname Htail.
  assert (match_here p (re_literal p ++ name ++ tail) = Some name) as Hhere.
  { apply match_here_spec. exists tail. split; [done|]. split; [done|].
    split; [done|]. destruct Htail as [->| ->]; [by left | right; by eexists]. }
  destruct (re_literal p ++ name ++ tail); simpl; by rewrite Hhere.
Qed.

(** X1. A profile URL resolves to the name it was made from: a prefix that
    does not hold the letter r (a scheme, [www.], [old.]), one of the three
    shapes, a non-empty name without '/', and at most a closing '/'. *)
Theorem resolver_round_trip pre lit name tail :
  114%N ∉ pre → lit ∈ shapes → name ≠ [] → SLASH ∉ name →
  tail = [] ∨ tail = [SLASH] →
  extract_username_from_url (pre ++ lit ++ name ++ tail) = Ok name.
Proof.
  intros Hpre Hlit Hne Hname Htail. unfold extract_username_from_url.
  assert (first_match patterns (pre ++ lit ++ name ++ tail) = Some name) as ->;
    [|done].
  destruct patterns_members as (H1 & H2 & H3).
  pose proof (λ p Hp, re_search_skip p pre (lit ++ name ++ tail) Hp Hpre) as Hskip.
  pose proof (λ p Hp, re_search_last_slash p name tail Hp Hname Htail) as Hrest.
  unfold patterns. cbn [first_match].
  rewrite (Hskip _ H1), (Hskip _ H2), (Hskip _ H3).
  repeat (apply elem_of_cons in Hlit as [->|Hlit]);
    [| | |by apply elem_of_nil in Hlit].
  - by rewrite (re_search_here (LiteralThenGroup (str "reddit.com/u/"))).
  - replace (re_search (LiteralThenGroup (str "reddit.com/u/"))
               (str "reddit.com/user/" ++ name ++ tail)) with (@None (list N)).
    2:{ rewrite <- (Hrest _ H1). vm_compute (str "reddit.com/user/").
        reflexivity. }
    by rewrite (re_search_here (LiteralThenGroup (str "reddit.com/user/"))).
  - replace (re_search (LiteralThenGroup (str "reddit.com/u/"))
               (str "reddit.com/users/" ++ name ++ tail)) with (@None (list N)).
    2:{ rewrite <- (Hrest _ H1). vm_compute (str "reddit.com/users/").
        reflexivity. }
    replace (re_search (LiteralThenGroup (str "reddit.com/user/"))
               (str "reddit.com/users/" ++ name ++ tail)) with (@None (list N)).
    2:{ rewrite <- (Hrest _ H2). vm_compute (str "reddit.com/users/").
        reflexivity. }
    by rewrite (re_search_here (LiteralThenGroup (str "reddit.com/users/"))).
Qed.

(** A URL in the form of the placeholder of the dashboard's URL field. *)
Lemma resolver_round_trip_witness :
  extract_username_from_url
    (str "https://www." ++ str "reddit.com/user/" ++ str "alice" ++ [SLASH])
  = Ok (str "alice").
Proof.
  apply resolver_round_trip.
  - vm_compute. intros Hin.
    repeat (apply elem_of_cons in Hin as [Hin|Hin]; [discriminate|]).
    by apply elem_of_nil in Hin.
  - apply elem_of_cons. right. apply elem_of_cons. by left.
  - vm_compute. discriminate.
  - vm_compute. intros Hin.
    repeat (apply elem_of_cons in Hin as [Hin|Hin]; [discriminate|]).
    by apply elem_of_nil in Hin.
  - by right.
Defined.

(** X2. A text without '/', such as a bare user name or the empty text, is
    rejected with [ValueError: Invalid Reddit URL format: <text>]. *)
Theorem resolver_rejects_bare_names url :
  SLASH ∉ url →
  extract_username_from_url url
  = Raise (Exn ValueError (str "Invalid Reddit URL format: " ++ url)).
Proof.
  intros Hurl.
  assert (∀ p, p ∈ patterns → re_search p url = None) as Hnone.
  { intros p Hp. rewrite <- (app_nil_r url).
    apply re_search_last_slash; [done | done | by left]. }
  destruct patterns_members as (H1 & H2 & H3).
  unfold extract_username_from_url, patterns. cbn [first_match].
  by rewrite (Hnone _ H1), (Hnone _ H2), (Hnone _ H3).
Qed.

Lemma resolver_rejects_bare_names_witness :
  extract_username_from_url (str "alice")
  = Raise (Exn ValueError (str "Invalid Reddit URL format: " ++ str "alice")).
Proof.
  apply resolver_rejects_bare_names.
  vm_compute. intros Hin.
  repeat (apply elem_of_cons in Hin as [Hin|Hin]; [discriminate|]).
  by apply elem_of_nil in Hin.
Defined.

End Profiles.

(** ** The collector's outcomes and the configuration *)

Section Collection.

Implicit Types (env : Env) (s : state) (name : list N).

(** X3. When the first access to the account raises, or the account has no
    [id] and reading it raises, the collector raises a plain exception whose
    text begins with "Error scraping user data: "; in the second case the
    text names the user as not found or suspended and the original error
    is dropped. Neither listing is requested. *)
Theorem account_check_failure env s name limit :
  (∀ e, redditor_hasattr_id env name = Raise e →
        scrape_user_data name limit env s
        = (Raise (Exn PlainException
                    (str "Error scraping user data: " ++ exn_str e)),
           log s [EvRedditorFetch name]))
  ∧ (∀ e, redditor_hasattr_id env name = Ok false →
          redditor_id env name = Raise e →
          scrape_user_data name limit env s
          = (Raise (Exn PlainException
                      (str "Error scraping user data: User '" ++ name
                       ++ str "' not found or suspended")),
             log s [EvRedditorFetch name; EvRedditorFetch name])).
Proof.
  split; intros e.
  - intros H. rewrite scrape_user_data_run. unfold identity_check. by rewrite H.
  - intros H1 H2. rewrite scrape_user_data_run. unfold identity_check.
    rewrite H1, H2. vm_compute. reflexivity.
Qed.

(** The account of [ghost_env] has no [id]. *)
Lemma account_check_failure_witness :
  scrape_user_data (str "ghost") 100 ghost_env (initial_state ∅)
  = (Raise (Exn PlainException
              (str "Error scraping user data: User 'ghost' not found or suspended")),
     log (initial_state ∅)
       [EvRedditorFetch (str "ghost"); EvRedditorFetch (str "ghost")]).
Proof.
  rewrite (proj2 (account_check_failure ghost_env (initial_state ∅)
                    (str "ghost") 100) _ eq_refl eq_refl).
  vm_compute. reflexivity.
Defined.



End Collection.

Section Configuration.

(** X5. A key counts as configured exactly when the environment variable or
    the secret store holds a non-empty value: a non-empty environment
    variable wins, and an empty one does not hide the secret. *)
Theorem get_api_key_sources (getenv secrets : list N → option (list N)) key :
  truthy_opt (get_api_key getenv secrets key)
  = truthy_opt (getenv key) || truthy_opt (secrets key)
  ∧ (truthy_opt (getenv key) = true →
     get_api_key getenv secrets key = getenv key)
  ∧ (truthy_opt (getenv key) = false →
     get_api_key getenv secrets key = secrets key).
Proof.
  unfold get_api_key.
  destruct (getenv key) as [[|c v]|]; simpl; repeat split; done.
Qed.

(** An empty [GROQ_API_KEY] variable and a secret. *)
Lemma get_api_key_sources_witness :
  get_api_key (λ _, Some []) (λ _, Some (str "gsk_secret")) (str "GROQ_API_KEY")
  = Some (str "gsk_secret").
Proof.
  apply (proj2 (proj2 (get_api_key_sources (λ _, Some [])
                         (λ _, Some (str "gsk_secret")) (str "GROQ_API_KEY")))).
  reflexivity.
Defined.

End Configuration.

(** ** The size of the excerpt *)

Section ExcerptSize.

Lemma join_nil_inv sep parts :
  Forall (λ l, l ≠ []) parts → join sep parts = [] → parts = [].
Proof.
  intros Hparts. destruct Hparts as [|l parts Hl _]; [done|].
  destruct parts; simpl; [done|]. intros H. by apply app_eq_nil in H as [? _].
Qed.

Lemma join_length_le sep parts bound :
  Forall (λ l, length l ≤ bound) parts →
  length (join sep parts) ≤ length parts * (bound + length sep).
Proof.
  induction 1 as [|l parts Hl _ IH]; [done|].
  destruct parts as [|l' parts].
  - simpl in *. lia.
  - change (join sep (l :: l' :: parts)) with (l ++ sep ++ join sep (l' :: parts)).
    rewrite !length_app. cbn [length] in *. lia.
Qed.

Lemma filter_nil {A} (q : A → bool) (l : list A) :
  List.filter q l = [] ↔ Forall (λ a, q a = false) l.
Proof.
  induction l as [|a l IH]; simpl; [by split|].
  destruct (q a) eqn:Ha.
  - split; [done|]. intros H. apply Forall_cons in H as [? _]. congruence.
  - rewrite IH. split; [by constructor | by intros [_ ?]%Forall_cons].
Qed.

Lemma post_line_length p :
  length (post_line p) ≤ length (p_id p) + length (p_title p) + 512.
Proof.
  unfold post_line. rewrite !length_app.
  change (length (str "POST [")) with 6. change (length (str "]: ")) with 3.
  destruct (truthy (p_selftext p)).
  - rewrite length_app, length_take. change (length (str " - ")) with 3. lia.
  - simpl. lia.
Qed.

Lemma comment_line_length c :
  length (comment_line c) ≤ length (c_id c) + 512.
Proof.
  unfold comment_line. rewrite !length_app, length_take.
  change (length (str "COMMENT [")) with 9. change (length (str "]: ")) with 3.
  lia.
Qed.

(** X6. The excerpt is the empty text exactly when none of the first 50
    posts has a title and none of the first 50 comments is longer than 10
    characters. *)
Theorem excerpt_empty (ud : user_data) :
  _prepare_content ud = []
  ↔ Forall (λ p, p_title p = []) (take 50 (posts ud))
    ∧ Forall (λ c, length (c_body c) ≤ 10) (take 50 (comments ud)).
Proof.
  assert (∀ p, has_title p = false ↔ p_title p = []) as Htitle.
  { intros p. unfold has_title. by destruct (p_title p). }
  assert (∀ c, long_body c = false ↔ length (c_body c) ≤ 10) as Hbody.
  { intros c. unfold long_body, len. rewrite Z.ltb_ge. lia. }
  unfold _prepare_content. rewrite content_lines_spec. split.
  - intros Hjoin. apply join_nil_inv in Hjoin.
    + apply app_eq_nil in Hjoin as [Hp Hc].
      apply fmap_nil_inv in Hp, Hc. apply filter_nil in Hp, Hc.
      split; (eapply Forall_impl; [eassumption|]); intros ?; cbv beta;
        [apply Htitle | apply Hbody].
    + apply Forall_app. split; apply Forall_fmap, Forall_true; intros x.
      * pose proof (is_post_line_post x) as H. by destruct (post_line x).
      * pose proof (is_comment_line_comment x) as H. by destruct (comment_line x).
  - intros [Hp Hc].
    assert (List.filter has_title (take 50 (posts ud)) = []) as ->.
    { apply filter_nil. eapply Forall_impl; [exact Hp|]. intros p. apply Htitle. }
    assert (List.filter long_body (take 50 (comments ud)) = []) as ->; [|done].
    apply filter_nil. eapply Forall_impl; [exact Hc|]. intros c. apply Hbody.
Qed.

Lemma excerpt_empty_witness : _prepare_content terse_data = [].
Proof.
  apply excerpt_empty. split.
  - repeat constructor.
  - repeat constructor; vm_compute; lia.
Defined.

(** X7. The excerpt has at most 100 lines of bounded length: when, among
    the first 50 posts and comments, no post's id and title together and
    no comment's id are longer than [bound], the excerpt is no longer than
    [100 * (bound + 514)] characters, whatever the length of the bodies. *)
Theorem excerpt_length_bound (ud : user_data) (bound : nat) :
  Forall (λ p, length (p_id p) + length (p_title p) ≤ bound)
    (take 50 (posts ud)) →
  Forall (λ c, length (c_id c) ≤ bound) (take 50 (comments ud)) →
  length (_prepare_content ud) ≤ 100 * (bound + 514).
Proof.
  intros Hp Hc. unfold _prepare_content.
  pose proof (join_length_le [NL; NL] (content_lines ud) (bound + 512)) as Hjoin.
  assert (length (content_lines ud) ≤ 100) as Hlines.
  { rewrite content_lines_spec, length_app, !length_map.
    pose proof (filter_length_le has_title (take 50 (posts ud))).
    pose proof (filter_length_le long_body (take 50 (comments ud))).
    pose proof (length_take_le (posts ud) 50).
    pose proof (length_take_le (comments ud) 50).
    rewrite !length_take in *. lia. }
  cbn [length] in Hjoin.
  etrans; [apply Hjoin|].
  - rewrite content_lines_spec. apply Forall_app. split; apply Forall_fmap.
    + apply Forall_forall. intros p Hin.
      apply list_elem_of_In, List.filter_In in Hin as [Hin _].
      apply list_elem_of_In in Hin.
      pose proof (proj1 (Forall_forall _ _) Hp p Hin) as Hb. cbv beta in Hb.
      pose proof (post_line_length p). unfold compose. lia.
    + apply Forall_forall. intros c Hin.
      apply list_elem_of_In, List.filter_In in Hin as [Hin _].
      apply list_elem_of_In in Hin.
      pose proof (proj1 (Forall_forall _ _) Hc c Hin) as Hb. cbv beta in Hb.
      pose proof (comment_line_length c). unfold compose. lia.
  - nia.
Qed.

Lemma excerpt_length_bound_witness :
  length (_prepare_content untitled_data) ≤ 100 * (10 + 514).
Proof.
  apply excerpt_length_bound.
  - repeat constructor; vm_compute; lia.
  - repeat constructor.
Defined.

End ExcerptSize.

(** ** Reports on disk *)

Section Reports.

Implicit Types (persona name path : list N) (env : Env) (s : state).

(** X8. Whenever the report writer returns, the file at the path it returns
    holds the profile, an empty line and the line [Profile Generated:]
    with the time of the one clock reading taken; the path is the file
    name joined to [output]. *)
Theorem save_persona_postcondition persona name env s path s' :
  save_persona persona name env s = (Ok path, s') →
  path = os_path_join (str "output") (name ++ str "_digital_profile.txt")
  ∧ fs s' !! path
    = Some (File (report_text persona (datetime_now env (ticks s))))
  ∧ ticks s' = S (ticks s).
Proof.
  intros Hrun. apply save_persona_returns in Hrun as (Hpath & _ & ->).
  split; [done|]. split; [apply lookup_insert_eq | done].
Qed.

Lemma save_persona_postcondition_witness :
  fs (save_persona (str "profile") (str "alice") alice_env
        (initial_state ∅)).2 !! str "output/alice_digital_profile.txt"
  = Some (File (report_text (str "profile") (datetime_now alice_env 0))).
Proof.
  pose proof (surjective_pairing
                (save_persona (str "profile") (str "alice") alice_env
                   (initial_state ∅))) as Hrun.
  assert ((save_persona (str "profile") (str "alice") alice_env
             (initial_state ∅)).1
          = Ok (str "output/alice_digital_profile.txt")) as Hpath
    by (vm_compute; reflexivity).
  rewrite Hpath in Hrun.
  exact (proj1 (proj2 (save_persona_postcondition _ _ _ _ _ _ Hrun))).
Defined.

(** X9. Saving a second profile for the same user replaces the first:
    when both calls return, for a user name without '/', they return the
    same path, the report then holds the second profile and the time of
    the second clock reading, nothing of the first, and no other path has
    changed since the first call. *)
Theorem save_persona_overwrites persona1 persona2 name env s path1 s1 path2 s2 :
  SLASH ∉ name →
  save_persona persona1 name env s = (Ok path1, s1) →
  save_persona persona2 name env s1 = (Ok path2, s2) →
  path2 = path1
  ∧ fs s2 !! path1
    = Some (File (report_text persona2 (datetime_now env (S (ticks s)))))
  ∧ ∀ path, path ≠ path1 → fs s2 !! path = fs s1 !! path.
Proof.
  intros _ Hfirst Hsecond.
  apply save_persona_returns in Hfirst as (Hpath1 & _ & ->).
  apply save_persona_returns in Hsecond as (Hpath2 & _ & ->).
  cbn [fs ticks]. split; [congruence|]. rewrite Hpath2, <- Hpath1.
  split; [apply lookup_insert_eq|].
  intros path Hpath. rewrite lookup_insert_ne by done.
  pose proof (join_not_output (name ++ str "_digital_profile.txt")) as Hne.
  rewrite <- Hpath1 in Hne.
  assert (with_output (<[path1 := File (report_text persona1
                                          (datetime_now env (ticks s)))]>
                         (with_output (fs s)))
          = <[path1 := File (report_text persona1 (datetime_now env (ticks s)))]>
              (with_output (fs s))) as ->; [|done].
  unfold with_output at 1. rewrite lookup_insert_ne by done.
  destruct (with_output (fs s) !! str "output") eqn:Hout; [done|].
  unfold with_output in Hout.
  destruct (fs s !! str "output") eqn:Hs; [congruence|].
  by rewrite lookup_insert_eq in Hout.
Qed.

Lemma save_persona_overwrites_witness :
  let first := save_persona (str "old") (str "alice") alice_env
                 (initial_state ∅) in
  let second := save_persona (str "new") (str "alice") alice_env first.2 in
  fs second.2 !! report_path (str "alice")
  = Some (File (report_text (str "new")
                  (datetime_now alice_env (S (ticks (initial_state ∅)))))).
Proof.
  intros first second.
  pose proof (surjective_pairing first) as Hfirst.
  pose proof (surjective_pairing second) as Hsecond.
  assert (first.1 = Ok (report_path (str "alice"))) as H1
    by (vm_compute; reflexivity).
  assert (second.1 = Ok (report_path (str "alice"))) as H2
    by (vm_compute; reflexivity).
  rewrite H1 in Hfirst. rewrite H2 in Hsecond.
  refine (proj1 (proj2 (save_persona_overwrites (str "old") (str "new")
                          (str "alice") alice_env (initial_state ∅)
                          _ _ _ _ _ Hfirst Hsecond))).
  vm_compute. intros Hin.
  repeat (apply elem_of_cons in Hin as [Hin|Hin]; [discriminate|]).
  by apply elem_of_nil in Hin.
Defined.

(** X10. When [output] exists but is a regular file, the report writer
    raises for every user name without '/', and leaves the state as it
    was: no directory is made and no clock is read. *)
Theorem save_persona_output_is_file persona name env s content :
  SLASH ∉ name →
  fs s !! str "output" = Some (File content) →
  ∃ e, save_persona persona name env s = (Raise e, s).
Proof.
  intros Hname Hout.
  pose proof (no_slash_startswith _ Hname) as Hstart.
  pose proof (dirname_report_path _ Hname) as Hdir.
  unfold save_persona. rewrite bind_run, ensure_output_directory_exact.
  unfold with_output. rewrite Hout, (join_report_path _ Hstart).
  assert (with_fs s (fs s) = s) as -> by by destruct s.
  rewrite bind_run.
  destruct (open_w (report_path name) env s) as [[[]|e] s1] eqn:Hopen.
  - exfalso. revert Hopen.
    unfold open_w, get_fs, put_fs, raise. rewrite bind_run. cbn.
    rewrite Hdir, Hout. cbn. by repeat case_match.
  - apply open_w_Raise in Hopen as ->. by exists e.
Qed.

Lemma save_persona_output_is_file_witness :
  ∃ e, save_persona (str "profile") (str "alice") alice_env
         (initial_state blocked_files)
       = (Raise e, initial_state blocked_files).
Proof.
  apply (save_persona_output_is_file _ _ _ _ (str "x")).
  - vm_compute. intros Hin.
    repeat (apply elem_of_cons in Hin as [Hin|Hin]; [discriminate|]).
    by apply elem_of_nil in Hin.
  - vm_compute. reflexivity.
Defined.

End Reports.

(** ** The shells and the disk *)

Section Disk.

Implicit Types (cfg : Config) (args : Args) (env : Env) (s : state).

Lemma nothing_ignores_boring : ignores_boring (λ _, false).
Proof. done. Qed.

(** The disk after a run of the command line, and its exit status, by
    what the services answer. *)
Lemma cli_disk cfg args env s :
  let run := command_line_interface cfg args env s in
  match pipeline_answer cfg (args_url args) (args_depth args) (args_model args)
          env (requests s) with
  | Some (name, persona) =>
    ∃ s0, fs s0 = fs s ∧ ticks s0 = ticks s
          ∧ fs run.2 = fs (save_persona persona name env s0).2
          ∧ run.1 = match (save_persona persona name env s0).1 with
                    | Ok _ => Ok 0%Z
                    | Raise _ => Ok 1%Z
                    end
  | None => run.1 = Ok 1%Z ∧ fs run.2 = fs s
  end.
Proof.
  intros run.
  pose proof (cli_run_effects _ nothing_ignores_boring cfg args env s) as H.
  unfold outcome, cli_effects, pipeline_answer in *. fold run in H.
  destruct (praw_Reddit env _ _ _); [|by destruct H as (? & _ & ? & _)].
  destruct (extract_username_from_url _) as [name|];
    [|by destruct H as (? & _ & ? & _)].
  destruct (identity_check env name).1; [by destruct H as (? & _ & ? & _)|].
  destruct (Groq env _); [|by destruct H as (? & _ & ? & _)].
  destruct (chat_completions_create env (requests s) _);
    [|by destruct H as (? & _ & ? & _)].
  destruct (chat_completions_create env (S (requests s)) _) as [persona|];
    [|by destruct H as (? & _ & ? & _)].
  destruct H as (s0 & (_ & Hfs & _ & Hticks) & (_ & Hfs' & _) & Hr).
  exists s0. by rewrite Hfs'.
Qed.

(** The same for a click on the dashboard's button. *)
Lemma st_disk cfg url limit m env s :
  let run := streamlit_app cfg url limit m env s in
  match pipeline_answer cfg url limit m env (requests s) with
  | Some (name, persona) =>
    fs run.2 = fs s
    ∨ ∃ s0, fs s0 = fs s ∧ ticks s0 = ticks s
            ∧ fs run.2 = fs (save_persona persona name env s0).2
  | None => fs run.2 = fs s
  end.
Proof.
  intros run.
  pose proof (st_run_effects _ nothing_ignores_boring cfg url limit m env s)
    as [_ H].
  unfold outcome, st_effects, pipeline_answer in *. fold run in H.
  destruct (negb (truthy url) || _ || _ || _).
  { destruct H as (_ & H & _). by repeat case_match; try left. }
  destruct (praw_Reddit env _ _ _); [|by destruct H as (_ & ? & _)].
  destruct (extract_username_from_url _) as [name|];
    [|by destruct H as (_ & ? & _)].
  destruct (identity_check env name).1; [by destruct H as (_ & ? & _)|].
  destruct (Groq env _); [|by destruct H as (_ & ? & _)].
  destruct (chat_completions_create env (requests s) _);
    [|by destruct H as (_ & ? & _)].
  destruct (chat_completions_create env (S (requests s)) _) as [persona|];
    [|by destruct H as (_ & ? & _)].
  destruct H as (s0 & (_ & Hfs & _ & Hticks) & H).
  right. exists s0. split; [done|]. split; [done|].
  by destruct (save_persona persona name env s0).1; destruct H as (_ & ? & _).
Qed.

Lemma pipeline_answer_resolves cfg url limit m env n name persona :
  pipeline_answer cfg url limit m env n = Some (name, persona) →
  extract_username_from_url url = Ok name.
Proof.
  unfold pipeline_answer. repeat case_match; try done. by intros [= <- _].
Qed.

Lemma resolved_report_path url name :
  extract_username_from_url url = Ok name →
  (SLASH ∉ name)
  ∧ os_path_join (str "output") (name ++ str "_digital_profile.txt")
    = report_path name.
Proof.
  intros [_ Hname]%extract_Ok%resolves_to_segment. split; [done|].
  by apply join_report_path, no_slash_startswith.
Qed.

(** X12. A run of the command line that exits with status 0 has written the
    report: every service answered, and the file
    [output/<name>_digital_profile.txt] for the resolved name holds the
    answer to the synthesis request, the second request of the run to the
    LLM endpoint, followed by the time stamp. *)
Theorem cli_exit_zero_report cfg args env s :
  let run := command_line_interface cfg args env s in
  run.1 = Ok 0%Z →
  ∃ name persona,
    pipeline_answer cfg (args_url args) (args_depth args) (args_model args)
      env (requests s) = Some (name, persona)
    ∧ fs run.2 !! report_path name
      = Some (File (report_text persona (datetime_now env (ticks s)))).
Proof.
  intros run Hexit. pose proof (cli_disk cfg args env s) as H. fold run in H.
  cbv zeta in H.
  destruct (pipeline_answer _ _ _ _ _ _) as [[name persona]|] eqn:Hanswer;
    [|destruct H; congruence].
  exists name, persona. split; [done|].
  destruct H as (s0 & Hfs & Hticks & -> & Hr).
  destruct (save_persona persona name env s0) as [[path|e] s1] eqn:Hsave;
    [|cbn in Hr; congruence].
  apply save_persona_returns in Hsave as (-> & _ & ->). cbn [snd fs].
  apply pipeline_answer_resolves, resolved_report_path in Hanswer as [_ Hpath].
  by rewrite <- Hpath, <- Hticks, lookup_insert_eq.
Qed.

Lemma cli_exit_zero_report_witness :
  ∃ name persona,
    pipeline_answer full_config (args_url alice_args) (args_depth alice_args)
      (args_model alice_args) alice_env (requests (initial_state ∅))
    = Some (name, persona)
    ∧ fs (command_line_interface full_config alice_args alice_env
            (initial_state ∅)).2 !! report_path name
      = Some (File (report_text persona
                      (datetime_now alice_env (ticks (initial_state ∅))))).
Proof.
  refine (cli_exit_zero_report full_config alice_args alice_env
            (initial_state ∅) _).
  vm_compute. reflexivity.
Defined.

(** X14. A run in which some service does not answer leaves the disk as it
    was, in either shell: not even the directory [output] is made; the
    command line exits with status 1. *)
Theorem failed_run_leaves_disk cfg args env s :
  pipeline_answer cfg (args_url args) (args_depth args) (args_model args)
    env (requests s) = None →
  (command_line_interface cfg args env s).1 = Ok 1%Z
  ∧ fs (command_line_interface cfg args env s).2 = fs s
  ∧ fs (streamlit_app cfg (args_url args) (args_depth args) (args_model args)
          env s).2 = fs s.
Proof.
  intros Hanswer.
  pose proof (cli_disk cfg args env s) as Hcli.
  pose proof (st_disk cfg (args_url args) (args_depth args) (args_model args)
                env s) as Hst.
  cbv zeta in *. rewrite Hanswer in Hcli, Hst. by destruct Hcli.
Qed.

Lemma failed_run_leaves_disk_witness :
  fs (command_line_interface full_config alice_args ghost_env
        (initial_state ∅)).2 = fs (initial_state ∅).
Proof.
  destruct (failed_run_leaves_disk full_config alice_args ghost_env
              (initial_state ∅)) as (_ & H & _); [|exact H].
  vm_compute. reflexivity.
Defined.

(** X15. Neither shell touches a path other than [output] and the report of
    the resolved user: every other path holds after the run what it held
    before, whatever [--output] names. *)
Theorem shells_disk_frame cfg args env s path :
  path ≠ str "output" →
  (∀ name, extract_username_from_url (args_url args) = Ok name →
           path ≠ report_path name) →
  fs (command_line_interface cfg args env s).2 !! path = fs s !! path
  ∧ fs (streamlit_app cfg (args_url args) (args_depth args) (args_model args)
          env s).2 !! path = fs s !! path.
Proof.
  intros Hout Hreport.
  pose proof (cli_disk cfg args env s) as Hcli.
  pose proof (st_disk cfg (args_url args) (args_depth args) (args_model args)
                env s) as Hst.
  cbv zeta in *.
  destruct (pipeline_answer _ _ _ _ _ _) as [[name persona]|] eqn:Hanswer.
  - apply pipeline_answer_resolves in Hanswer.
    pose proof (Hreport _ Hanswer) as Hpath.
    apply resolved_report_path in Hanswer as [_ Hjoin].
    rewrite <- Hjoin in Hpath.
    assert (∀ s0, fs s0 = fs s →
              fs (save_persona persona name env s0).2 !! path = fs s !! path)
      as Hframe.
    { intros s0 <-. by apply save_persona_frame. }
    split.
    + destruct Hcli as (s0 & Hfs & _ & -> & _). by apply Hframe.
    + destruct Hst as [->|(s0 & Hfs & _ & ->)]; [done | by apply Hframe].
  - destruct Hcli as [_ ->]. by rewrite Hst.
Qed.

Lemma shells_disk_frame_witness :
  fs (command_line_interface full_config results_args alice_env
        (initial_state tmp_files)).2 !! str "results"
  = fs (initial_state tmp_files) !! str "results".
Proof.
  destruct (shells_disk_frame full_config results_args alice_env
              (initial_state tmp_files) (str "results")) as [H _]; [| |exact H].
  - vm_compute. discriminate.
  - intros name Hname Heq. apply (f_equal length) in Heq.
    unfold report_path in Heq. rewrite !length_app in Heq.
    vm_compute (length (str _)) in Heq. lia.
Defined.

End Disk.

(** ** The shells and the two services *)

Section Requests.

Implicit Types (cfg : Config) (args : Args) (env : Env) (s : state).

Lemma request_ignores_boring : ignores_boring is_request.
Proof. intros [| | | | | | | |[]]; done. Qed.

Lemma observe_request_identity env name :
  observe is_request (identity_check env name).2 = (identity_check env name).2.
Proof.
  apply observe_all. eapply Forall_impl; [apply identity_events_fetch|].
  by intros ev ->.
Qed.

Lemma chat_requests_identity env name :
  chat_requests (identity_check env name).2 = [].
Proof. by rewrite <- chat_requests_observe, observe_key_identity. Qed.

Lemma advance_through_save q s s0 s' evs evs' k t k' t' persona name env :
  ignores_boring q →
  advance q s s0 evs k t →
  advance q (save_persona persona name env s0).2 s' evs' k' t' →
  seen q s s' (evs ++ evs').
Proof.
  intros Hq [Hs _] [Hs' _].
  eapply seen_trans; [|exact Hs'].
  eapply seen_quiet; [exact Hs|]. by apply quiet_save_persona.
Qed.

(** X16. A URL that does not resolve costs no request: neither shell sends
    anything to the content API or to the LLM endpoint, and the command
    line exits with status 1. *)
Theorem unresolved_url_costs_no_request cfg args env s e :
  extract_username_from_url (args_url args) = Raise e →
  (command_line_interface cfg args env s).1 = Ok 1%Z
  ∧ observe is_request (trace (command_line_interface cfg args env s).2)
    = observe is_request (trace s)
  ∧ observe is_request
      (trace (streamlit_app cfg (args_url args) (args_depth args)
                (args_model args) env s).2)
    = observe is_request (trace s).
Proof.
  intros Hurl.
  pose proof (cli_run_effects _ request_ignores_boring cfg args env s) as Hcli.
  pose proof (st_run_effects _ request_ignores_boring cfg (args_url args)
                (args_depth args) (args_model args) env s) as [_ Hst].
  unfold outcome, cli_effects, st_effects in *. rewrite Hurl in Hcli, Hst.
  assert (∀ s', advance is_request s s' [] 0 0 →
                observe is_request (trace s') = observe is_request (trace s))
    as Hsame.
  { intros s' [-> _]. apply app_nil_r. }
  split; [|split].
  - by destruct (praw_Reddit env _ _ _); destruct Hcli.
  - by destruct (praw_Reddit env _ _ _); destruct Hcli as [_ ?]; apply Hsame.
  - destruct (_ || _); [by apply Hsame|].
    by destruct (praw_Reddit env _ _ _); apply Hsame.
Qed.

Lemma unresolved_url_costs_no_request_witness :
  observe is_request
    (trace (command_line_interface full_config
              {| args_url := str "alice"; args_depth := 100;
                 args_model := llama3_70b; args_output := str "output" |}
              alice_env (initial_state ∅)).2)
  = observe is_request (trace (initial_state ∅)).
Proof.
  destruct (unresolved_url_costs_no_request full_config
              {| args_url := str "alice"; args_depth := 100;
                 args_model := llama3_70b; args_output := str "output" |}
              alice_env (initial_state ∅)
              (invalid_format (str "alice"))) as (_ & H & _); [|exact H].
  vm_compute. reflexivity.
Defined.

(** X17. When the account check fails, neither shell asks for a listing or
    sends anything to the LLM endpoint: the only requests of the run are
    the accesses to the account. *)
Theorem failed_account_check_stops_pipeline cfg args env s name e :
  extract_username_from_url (args_url args) = Ok name →
  (identity_check env name).1 = Some e →
  (command_line_interface cfg args env s).1 = Ok 1%Z
  ∧ (∃ evs,
       observe is_request (trace (command_line_interface cfg args env s).2)
       = observe is_request (trace s) ++ evs
       ∧ Forall (λ ev, ev = EvRedditorFetch name) evs)
  ∧ (∃ evs,
       observe is_request
         (trace (streamlit_app cfg (args_url args) (args_depth args)
                   (args_model args) env s).2)
       = observe is_request (trace s) ++ evs
       ∧ Forall (λ ev, ev = EvRedditorFetch name) evs).
Proof.
  intros Hurl Hid.
  pose proof (cli_run_effects _ request_ignores_boring cfg args env s) as Hcli.
  pose proof (st_run_effects _ request_ignores_boring cfg (args_url args)
                (args_depth args) (args_model args) env s) as [_ Hst].
  unfold outcome, cli_effects, st_effects in *.
  rewrite Hurl, Hid in Hcli, Hst.
  assert (∀ s', advance is_request s s' [] 0 0 →
                ∃ evs, observe is_request (trace s')
                       = observe is_request (trace s) ++ evs
                       ∧ Forall (λ ev, ev = EvRedditorFetch name) evs)
    as Hnone.
  { intros s' [-> _]. by exists []. }
  assert (∀ s', advance is_request s s' (identity_check env name).2 0 0 →
                ∃ evs, observe is_request (trace s')
                       = observe is_request (trace s) ++ evs
                       ∧ Forall (λ ev, ev = EvRedditorFetch name) evs)
    as Hsome.
  { intros s' [-> _]. exists (identity_check env name).2.
    split; [by rewrite observe_request_identity | apply identity_events_fetch]. }
  split; [|split].
  - by destruct (praw_Reddit env _ _ _); destruct Hcli.
  - destruct (praw_Reddit env _ _ _); destruct Hcli as [_ ?]; auto.
  - destruct (_ || _); [auto|]. destruct (praw_Reddit env _ _ _); auto.
Qed.

Lemma failed_account_check_stops_pipeline_witness :
  (command_line_interface full_config alice_args ghost_env
     (initial_state ∅)).1 = Ok 1%Z.
Proof.
  destruct (failed_account_check_stops_pipeline full_config alice_args
              ghost_env (initial_state ∅) (str "alice")
              (Exn ValueError (str "User 'alice' not found or suspended")))
    as (H & _); [| |exact H].
  - vm_compute. reflexivity.
  - vm_compute. reflexivity.
Defined.

(** X18. When the test request is not answered, the synthesis request is not
    sent: the run sends the LLM endpoint the test request at most, in
    either shell. *)
Theorem failed_test_request_stops_synthesis cfg args env s e :
  chat_completions_create env (requests s)
    (test_request (model_name (args_model args))) = Raise e →
  let sent s' :=
    chat_requests (trace s') = chat_requests (trace s)
    ∨ chat_requests (trace s')
      = chat_requests (trace s) ++ [test_request (model_name (args_model args))]
  in
  sent (command_line_interface cfg args env s).2
  ∧ sent (streamlit_app cfg (args_url args) (args_depth args) (args_model args)
            env s).2.
Proof.
  intros Htest sent.
  pose proof (cli_run_effects _ key_ignores_boring cfg args env s) as Hcli.
  pose proof (st_run_effects _ key_ignores_boring cfg (args_url args)
                (args_depth args) (args_model args) env s) as [_ Hst].
  unfold outcome, cli_effects, st_effects in *. rewrite Htest in Hcli, Hst.
  assert (∀ s', advance is_key_event s s' [] 0 0 → sent s') as Hnone.
  { intros s' [H _]. left. apply chat_requests_seen in H.
    by rewrite H, app_nil_r. }
  assert (∀ s' name, advance is_key_event s s' (identity_check env name).2 0 0 →
                     sent s') as Hid.
  { intros s' name [H _]. left. apply chat_requests_seen in H.
    by rewrite H, chat_requests_identity, app_nil_r. }
  assert (∀ s' name limit, advance is_key_event s s' (fetches env name limit) 0 0 →
                           sent s') as Hfetch.
  { intros s' name limit [H _]. left. apply chat_requests_seen in H.
    by rewrite H, chat_requests_fetches, app_nil_r. }
  assert (∀ s' name limit k,
            advance is_key_event s s'
              (fetches env name limit
               ++ [EvChatCompletion
                     (test_request (model_name (args_model args)))]) k 0 →
            sent s') as Hone.
  { intros s' name limit k [H _]. right. apply chat_requests_seen in H.
    by rewrite H, chat_requests_app, chat_requests_fetches. }
  split.
  - destruct (praw_Reddit env _ _ _); [|destruct Hcli; auto].
    destruct (extract_username_from_url _) as [name|]; [|destruct Hcli; auto].
    destruct (identity_check env name).1; [destruct Hcli; eauto|].
    destruct (Groq env _); destruct Hcli; eauto.
  - destruct (_ || _); [auto|].
    destruct (praw_Reddit env _ _ _); [|auto].
    destruct (extract_username_from_url _) as [name|]; [|auto].
    destruct (identity_check env name).1; [eauto|].
    destruct (Groq env _); eauto.
Qed.

Lemma failed_test_request_stops_synthesis_witness :
  chat_requests
    (trace (command_line_interface full_config alice_args throttled_env
              (initial_state ∅)).2)
  = chat_requests (trace (initial_state ∅))
  ∨ chat_requests
      (trace (command_line_interface full_config alice_args throttled_env
                (initial_state ∅)).2)
    = chat_requests (trace (initial_state ∅))
      ++ [test_request (model_name (args_model alice_args))].
Proof.
  destruct (failed_test_request_stops_synthesis full_config alice_args
              throttled_env (initial_state ∅)
              (Exn LibraryError (str "Error code: 429 - rate_limit_exceeded")))
    as [H _]; [|exact H].
  vm_compute. reflexivity.
Defined.

Lemma streamlit_guards cfg url limit m env s :
  truthy url = false
  ∨ truthy_opt (REDDIT_CLIENT_ID cfg) = false
  ∨ truthy_opt (REDDIT_CLIENT_SECRET cfg) = false
  ∨ truthy_opt (GROQ_API_KEY cfg) = false →
  ∃ message,
    streamlit_app cfg url limit m env s
    = (Ok tt, log s [EvSt (st_error message)]).
Proof.
  intros Hguard. unfold streamlit_app.
  destruct (truthy url); cbn [negb]; [|by eexists].
  destruct (truthy_opt (REDDIT_CLIENT_ID cfg)); cbn [negb orb]; [|by eexists].
  destruct (truthy_opt (REDDIT_CLIENT_SECRET cfg)); cbn [negb]; [|by eexists].
  destruct (truthy_opt (GROQ_API_KEY cfg)); cbn [negb]; [|by eexists].
  by destruct Hguard as [?|[?|[?|?]]].
Qed.

(** X19. From a click with an empty URL field, or with one of the three
    keys missing or empty both in the environment and in the secrets, the
    handler returns after an error message on the page, and apart from
    calls to the dashboard the click leaves no trace: no client is built,
    no request is sent, nothing is printed, and the disk and the clock are
    left alone. *)
Theorem dashboard_guards getenv secrets url limit m env s :
  url = []
  ∨ (∃ key, key ∈ [ str "REDDIT_CLIENT_ID"; str "REDDIT_CLIENT_SECRET";
                    str "GROQ_API_KEY" ]
            ∧ truthy_opt (getenv key) = false
            ∧ truthy_opt (secrets key) = false) →
  let run := streamlit_app (load_config getenv secrets) url limit m env s in
  let elsewhere ev := negb (is_dashboard_call ev) in
  run.1 = Ok tt
  ∧ (∃ message, EvSt (st_error message) ∈ trace run.2)
  ∧ observe elsewhere (trace run.2) = observe elsewhere (trace s)
  ∧ fs run.2 = fs s ∧ requests run.2 = requests s ∧ ticks run.2 = ticks s.
Proof.
  intros Hguard run elsewhere.
  assert (∃ message, run = (Ok tt, log s [EvSt (st_error message)]))
    as [message ->].
  { apply streamlit_guards.
    destruct Hguard as [->|(key & Hkey & Henv & Hsecret)]; [by left|].
    assert (truthy_opt (get_api_key getenv secrets key) = false) as Hnone.
    { unfold get_api_key. destruct (getenv key) as [[|c v]|]; done. }
    right. unfold load_config.
    cbn [REDDIT_CLIENT_ID REDDIT_CLIENT_SECRET GROQ_API_KEY].
    repeat (apply elem_of_cons in Hkey as [->|Hkey]);
      [| | |by apply elem_of_nil in Hkey].
    - by left.
    - right. by left.
    - right. by right. }
  cbn [fst snd log trace fs requests ticks].
  split; [done|]. split.
  { exists message. apply elem_of_app. right. apply list_elem_of_here. }
  split; [|done].
  rewrite observe_app. apply app_nil_r.
Qed.

Lemma dashboard_guards_witness :
  let run := streamlit_app
               (load_config (λ key, if bool_decide (key = str "GROQ_API_KEY")
                                    then Some [] else Some (str "set"))
                            (λ _, None))
               (str "https://www.reddit.com/user/alice/") 500 llama3_70b
               alice_env (initial_state ∅) in
  run.1 = Ok tt ∧ fs run.2 = fs (initial_state ∅).
Proof.
  destruct (dashboard_guards
              (λ key, if bool_decide (key = str "GROQ_API_KEY")
                      then Some [] else Some (str "set"))
              (λ _, None)
              (str "https://www.reddit.com/user/alice/") 500 llama3_70b
              alice_env (initial_state ∅)) as (Hr & _ & _ & Hfs & _).
  - right. exists (str "GROQ_API_KEY").
    split; [|split; reflexivity].
    do 2 apply list_elem_of_further. apply list_elem_of_here.
  - split; [exact Hr | exact Hfs].
Defined.

(** X20. The dashboard shows its success message only once the report is
    on disk: a click that shows it resolved the URL, every service
    answered, the message names the resolved user, and the report of that
    user holds the answer to the synthesis request and the time stamp. *)
Theorem dashboard_success_means_report cfg url limit m env s text :
  let run := streamlit_app cfg url limit m env s in
  (∀ text', EvSt (st_success text') ∉ trace s) →
  EvSt (st_success text) ∈ trace run.2 →
  ∃ name persona,
    pipeline_answer cfg url limit m env (requests s) = Some (name, persona)
    ∧ st_success text = success_message name
    ∧ fs run.2 !! report_path name
      = Some (File (report_text persona (datetime_now env (ticks s)))).
Proof.
  intros run Hs Hin. apply (elem_of_observe is_key_event) in Hin; [|done].
  pose proof (st_run_effects _ key_ignores_boring cfg url limit m env s)
    as [_ H].
  unfold outcome, st_effects, pipeline_answer in *. fold run in H.
  assert (∀ evs, seen is_key_event s run.2 evs →
                 EvSt (st_success text) ∈ observe is_key_event evs) as Hnew.
  { intros evs Hseen. rewrite Hseen in Hin.
    apply elem_of_app in Hin as [Hin|Hin]; [|done].
    apply list_elem_of_In, List.filter_In in Hin as [Hin _].
    apply list_elem_of_In in Hin. by destruct (Hs text). }
  assert (∀ name reqs tail,
            EvSt (st_success text)
              ∈ observe is_key_event
                  ((fetches env name limit ++ (EvChatCompletion <$> reqs))
                   ++ tail) →
            EvSt (st_success text) ∈ observe is_key_event tail) as Htail.
  { intros name reqs tail. rewrite !observe_app, observe_key_fetches.
    rewrite observe_key_requests.
    intros [Hreq|Hreq]%elem_of_app; [|done].
    by apply list_elem_of_fmap in Hreq as (req & ? & _). }
  assert (∀ name reqs,
            ¬ seen is_key_event s run.2
                (fetches env name limit ++ (EvChatCompletion <$> reqs)))
    as Hfail.
  { intros name reqs Hseen%Hnew. rewrite <- (app_nil_r (_ ++ _)) in Hseen.
    apply Htail in Hseen. by apply elem_of_nil in Hseen. }
  destruct (_ || _).
  { destruct H as [H%Hnew _]. by apply elem_of_nil in H. }
  destruct (praw_Reddit env _ _ _).
  2:{ destruct H as [H%Hnew _]. by apply elem_of_nil in H. }
  destruct (extract_username_from_url url) as [name|] eqn:Hname.
  2:{ destruct H as [H%Hnew _]. by apply elem_of_nil in H. }
  destruct (identity_check env name).1.
  { destruct H as [H%Hnew _]. rewrite observe_key_identity in H.
    by apply elem_of_nil in H. }
  destruct (Groq env _).
  2:{ destruct H as [H _]. destruct (Hfail name []). by rewrite app_nil_r. }
  destruct (chat_completions_create env (requests s) _).
  2:{ destruct H as [H _].
      by destruct (Hfail name [test_request (model_name m)]). }
  destruct (chat_completions_create env (S (requests s)) _) as [persona|].
  2:{ destruct H as [H _]. by destruct (Hfail name (llm_requests (model_name m)
                                                      (collected env name limit))). }
  destruct H as (s0 & Hs0 & H).
  destruct (save_persona persona name env s0) as [[path|e6] sw] eqn:Hsave;
    cbn [fst snd] in H.
  2:{ destruct (Hfail name (llm_requests (model_name m) (collected env name limit))).
      rewrite <- (app_nil_r (_ ++ _)).
      eapply advance_through_save; [apply key_ignores_boring | exact Hs0|].
      rewrite Hsave. exact H. }
  exists name, persona. split; [done|].
  assert (seen is_key_event s run.2
            ((fetches env name limit
              ++ (EvChatCompletion
                    <$> llm_requests (model_name m) (collected env name limit)))
             ++ [EvSt (success_message name)])) as Hseen.
  { eapply advance_through_save; [apply key_ignores_boring | exact Hs0|].
    rewrite Hsave. exact H. }
  apply Hnew, Htail in Hseen. apply list_elem_of_singleton in Hseen.
  split; [congruence|].
  destruct H as (_ & -> & _). destruct Hs0 as (_ & _ & _ & Hticks).
  change (ticks s0 = ticks s) in Hticks.
  apply save_persona_returns in Hsave as (-> & _ & ->). cbn [fs].
  apply resolved_report_path in Hname as [_ Hpath].
  by rewrite <- Hpath, <- Hticks, lookup_insert_eq.
Qed.

Lemma dashboard_success_means_report_witness :
  ∃ name persona,
    pipeline_answer full_config (str "https://www.reddit.com/user/alice/")
      500 llama3_70b alice_env (requests (initial_state ∅))
    = Some (name, persona)
    ∧ st_success
        (str "🎉 Successfully analyzed digital persona for **u/alice**")
      = success_message name
    ∧ fs (streamlit_app full_config (str "https://www.reddit.com/user/alice/")
            500 llama3_70b alice_env (initial_state ∅)).2 !! report_path name
      = Some (File (report_text persona
                      (datetime_now alice_env (ticks (initial_state ∅))))).
Proof.
  refine (dashboard_success_means_report full_config
            (str "https://www.reddit.com/user/alice/") 500 llama3_70b
            alice_env (initial_state ∅)
            (str "🎉 Successfully analyzed digital persona for **u/alice**")
            _ _).
  - intros text' Hin. by apply elem_of_nil in Hin.
  - apply list_elem_of_In. vm_compute.
    repeat (first [left; reflexivity | right]).
Defined.

End Requests.

(** ** The entry point *)

Section Entry.

Implicit Types (argv : list (list N)) (dashboard : M unit) (cli : M Z).

(** X21. [main] hands over to the command line exactly when there is an
    argument, the first argument is not [--streamlit], and some element of
    [sys.argv] is [--url] itself; otherwise the command line plays no part
    in the run, so that a URL passed in one piece as [--url=<value>]
    starts the dashboard. *)
Theorem main_enters_command_line_by_url_flag argv dashboard :
  (1 < length argv → argv !! 1 ≠ Some (str "--streamlit") →
   str "--url" ∈ argv → ∀ cli, main argv dashboard cli = cli)
  ∧ (length argv ≤ 1 ∨ argv !! 1 = Some (str "--streamlit")
     ∨ str "--url" ∉ argv →
     ∀ cli cli', main argv dashboard cli = main argv dashboard cli').
Proof.
  unfold main, len. split.
  - intros Hlen Hfirst Hurl cli.
    destruct (Z.ltb_spec 1 (Z.of_nat (length argv))); [|lia].
    by rewrite bool_decide_eq_false_2, bool_decide_eq_true_2.
  - intros Hno cli cli'.
    destruct (Z.ltb_spec 1 (Z.of_nat (length argv))); [|done].
    destruct Hno as [?|[Hfirst|Hurl]]; [lia| |].
    + by rewrite bool_decide_eq_true_2.
    + rewrite (bool_decide_eq_false_2 (_ ∈ _)) by done.
      by destruct (bool_decide _).
Qed.

Lemma main_enters_command_line_by_url_flag_witness :
  main [ str "reddit_persona.py";
         str "--url=https://www.reddit.com/user/alice/" ]
    (streamlit_app full_config [] 500 llama3_70b)
    (command_line_interface full_config alice_args)
  = main [ str "reddit_persona.py";
           str "--url=https://www.reddit.com/user/alice/" ]
      (streamlit_app full_config [] 500 llama3_70b)
      (mret 1%Z).
Proof.
  apply (proj2 (main_enters_command_line_by_url_flag
                  [ str "reddit_persona.py";
                    str "--url=https://www.reddit.com/user/alice/" ]
                  (streamlit_app full_config [] 500 llama3_70b))).
  right. right. vm_compute. intros Hin.
  repeat (apply elem_of_cons in Hin as [Hin|Hin]; [discriminate|]).
  by apply elem_of_nil in Hin.
Defined.

End Entry.
